(** * getheaders / getblocks wire messages (protos/msggetheaders.go)

    A shallow embedding of the two locator-request messages of the asimov
    [protos] package, [MsgGetHeaders] and [MsgGetBlocks], and of their wire
    codec, together with the properties the specification states about them.

    Conventions of the embedding:
    - [uint32], [uint64] and [int] values are [Z]; a byte is [Byte.byte];
    - [common.Hash] ([[32]byte]) is a [list byte], well-formed when its
      length is [HashLength];
    - a [*common.Hash] is [option Hash]: [None] is the nil pointer and
      [Some h] a pointer whose pointee holds [h].  The pointee's contents
      stand for the pointer because nothing here writes through a locator
      once it is stored: the decoder fills slot [i] of its buffer in
      iteration [i], before it appends the pointer to that slot, and the
      encoder only reads;
    - an [io.Reader] is the list of bytes still to be read, an [io.Writer]
      the list of bytes written so far (an in-memory buffer);
    - a method is a computation in the monad [M]: it threads the state it
      mutates (the receiver and the stream) and ends with a value, a Go
      [error], or a panic.  The state is returned in all three cases: what
      a method did to its receiver before failing stays visible. *)

From Stdlib Require Import ZArith Lia.
From Stdlib Require Import Strings.Byte.
From stdpp Require Import base option list strings pretty.

Local Open Scope Z_scope.

(** ** Go results *)

Inductive error : Type :=
| MessageError (Func Description : string)  (* protos.MessageError *)
| EOF                                       (* io.EOF *)
| ErrUnexpectedEOF.                         (* io.ErrUnexpectedEOF *)

Inductive res (A : Type) : Type :=
| Ok (a : A)
| Err (e : error)
| Panic (why : string).
Arguments Ok {A} a.
Arguments Err {A} e.
Arguments Panic {A} why.

Definition M (S A : Type) : Type := S -> S * res A.

Definition ret {S A} (a : A) : M S A := fun s => (s, Ok a).
Definition fail {S A} (e : error) : M S A := fun s => (s, Err e).
Definition panic {S A} (why : string) : M S A := fun s => (s, Panic why).
Definition bind {S A B} (m : M S A) (k : A -> M S B) : M S B :=
  fun s => match m s with
           | (s', Ok a) => k a s'
           | (s', Err e) => (s', Err e)
           | (s', Panic w) => (s', Panic w)
           end.
Definition get {S} : M S S := fun s => (s, Ok s).
Definition modify {S} (f : S -> S) : M S unit := fun s => (f s, Ok tt).

Declare Scope go_scope.
Delimit Scope go_scope with go.
Notation "x <- m ;; k" := (bind m (fun x => k))
  (at level 100, m at next level, right associativity) : go_scope.
Notation "m ;; k" := (bind m (fun _ => k))
  (at level 100, right associativity) : go_scope.
Local Open Scope go_scope.

(** The two kinds of error of the specification. *)
Definition ProtocolViolation (e : error) : Prop :=
  match e with MessageError _ _ => True | _ => False end.
Definition StreamFailure (e : error) : Prop :=
  match e with EOF | ErrUnexpectedEOF => True | _ => False end.

(** ** The environment of a call: the stream and the allocator *)

(** [rbuf] is the reader's remaining input, [wbuf] the writer's output, and
    [made] the log of the [make] calls: the number of elements of each slice
    allocated, most recent first. *)
Record Env : Type := mkEnv {
  rbuf : list byte;
  wbuf : list byte;
  made : list Z
}.

Definition reading (bs : list byte) : Env := mkEnv bs [] [].
Definition writing : Env := mkEnv [] [] [].

(** [make([]T, n)] or [make([]T, 0, n)]: panics on a negative size. *)
Definition make (n : Z) : M Env unit :=
  fun e => if n <? 0 then (e, Panic "makeslice: len out of range")
           else (mkEnv (rbuf e) (wbuf e) (n :: made e), Ok tt).

(** [io.ReadFull(r, buf[:n])] on an in-memory reader: all [n] bytes or an
    error; [io.EOF] when nothing was left, [io.ErrUnexpectedEOF] when the
    input ended part-way.  A failed read has consumed what was left. *)
Definition ReadFull (n : nat) : M Env (list byte) :=
  fun e => if decide (n <= length (rbuf e))%nat
           then (mkEnv (drop n (rbuf e)) (wbuf e) (made e), Ok (take n (rbuf e)))
           else (mkEnv [] (wbuf e) (made e),
                 Err (match rbuf e with [] => EOF | _ => ErrUnexpectedEOF end)).

(** [w.Write(bs)] on an in-memory buffer. *)
Definition WriteAll (bs : list byte) : M Env unit :=
  fun e => (mkEnv (rbuf e) (wbuf e ++ bs) (made e), Ok tt).

(** ** Bytes and little-endian integers *)

(** [byte(z)], the low-order eight bits, and the value of a byte. *)
Definition byte_of_Z (z : Z) : byte :=
  default x00 (Byte.of_N (Z.to_N (z mod 256))).
Definition Z_of_byte (b : byte) : Z := Z.of_N (Byte.to_N b).

(** The [n] low-order bytes of [v], least significant first. *)
Fixpoint le_bytes (n : nat) (v : Z) : list byte :=
  match n with
  | O => []
  | S n' => byte_of_Z v :: le_bytes n' (v / 256)
  end.

Fixpoint le_value (bs : list byte) : Z :=
  match bs with
  | [] => 0
  | b :: bs' => Z_of_byte b + 256 * le_value bs'
  end.

(** ** Package common *)

Module common.

(** Modelled from the spec: [common.HashLength] is declared outside this
    file.  "Hash values are exactly 32 bytes" (spec 3). *)
Definition HashLength : nat := 32.

(** Modelled from the spec: [common.Hash] is declared outside this file.
    A fixed-size hash value, [[HashLength]byte]; here the list of its
    bytes, [wf_hash] when there are [HashLength] of them. *)
Abbreviation Hash := (list byte) (only parsing).

(** The zero value of [common.Hash]. *)
Definition zeroHash : Hash := replicate HashLength x00.

Definition wf_hash (h : Hash) : bool := bool_decide (length h = HashLength).

End common.

(** ** Package common/serialization *)

Module serialization.

(** Modelled from the spec: [serialization.MaxVarIntPayload] is declared
    outside this file.  It is the worst-case width of a CompactSize
    integer: the marker byte [0xff] followed by an 8-byte value
    (spec 4.2, Encode step 3). *)
Definition MaxVarIntPayload : Z := 9.

(** Modelled from the spec: [serialization.ReadUint32] is outside this
    file.  "Read 4 bytes little-endian" (spec 4.2, Decode step 1).  The
    caller stores the value: the source passes the target's address. *)
Definition ReadUint32 : M Env Z :=
  bs <- ReadFull 4 ;; ret (le_value bs).

(** Modelled from the spec: [serialization.WriteUint32] is outside this
    file.  "a 4-byte little-endian unsigned integer" (Encode step 2). *)
Definition WriteUint32 (v : Z) : M Env unit := WriteAll (le_bytes 4 v).

(** Modelled from the spec: [serialization.WriteVarInt] is outside this
    file.  The CompactSize encoding of spec 4.2, Encode step 3. *)
Definition WriteVarInt (pver : Z) (val : Z) : M Env unit :=
  if val <? 0xfd then WriteAll [byte_of_Z val]
  else if val <=? 0xffff then WriteAll (byte_of_Z 0xfd :: le_bytes 2 val)
  else if val <=? 0xffffffff then WriteAll (byte_of_Z 0xfe :: le_bytes 4 val)
  else WriteAll (byte_of_Z 0xff :: le_bytes 8 val).

(** Modelled from the spec: [serialization.ReadVarInt] is outside this
    file.  "the inverse of the encoding above" (Decode step 2): the first
    byte selects the width of the value that follows. *)
Definition ReadVarInt (pver : Z) : M Env Z :=
  d <- ReadFull 1 ;;
  let discriminant := le_value d in
  if discriminant =? 0xff then bs <- ReadFull 8 ;; ret (le_value bs)
  else if discriminant =? 0xfe then bs <- ReadFull 4 ;; ret (le_value bs)
  else if discriminant =? 0xfd then bs <- ReadFull 2 ;; ret (le_value bs)
  else ret discriminant.

(** Modelled from the spec: [serialization.ReadNBytes] is outside this
    file.  "read exactly 32 bytes"; "any underlying read failure
    (including short reads) propagates as an I/O error".  The bytes read
    are returned to the caller, which stores them in its buffer; what a
    failed read leaves in the buffer is not modelled. *)
Definition ReadNBytes (n : nat) : M Env (list byte) := ReadFull n.

(** Modelled from the spec: [serialization.WriteNBytes] is outside this
    file.  Writes the bytes as they are. *)
Definition WriteNBytes (bs : list byte) : M Env unit := WriteAll bs.

End serialization.

(** ** Package protos: what the two messages share *)

(** [MaxBlockLocatorsPerMsg] is the maximum number of block locator hashes
    allowed per message. *)
Definition MaxBlockLocatorsPerMsg : Z := 500.

(** Modelled from the spec: [messageError] is declared outside this file.
    It builds the package's protocol-violation error from the name of the
    reporting function and a description (spec 7). *)
Definition messageError (f desc : string) : error := MessageError f desc.

(** [MessageEncoding] is declared outside this file; the codec receives
    it and never looks at it. *)
Definition MessageEncoding : Type := Z.

(** [fmt.Sprintf] with the verb [%v] on an integer: its decimal digits. *)
Definition fmt_v (n : Z) : string := pretty n.

(** Run a computation on the stream, or on the receiver, of a method. *)
Definition onEnv {T A} (m : M Env A) : M (T * Env) A :=
  fun s => match m (snd s) with (e', r) => ((fst s, e'), r) end.
Definition onSelf {T A} (m : M T A) : M (T * Env) A :=
  fun s => match m (fst s) with (t', r) => ((t', snd s), r) end.

(** ** MsgGetHeaders *)

Module MsgGetHeaders.
Import common serialization.

Record t : Type := mk {
  ProtocolVersion : Z;                      (* uint32 *)
  BlockLocatorHashes : list (option Hash);  (* []*common.Hash *)
  HashStop : Hash
}.

Definition setProtocolVersion (v : Z) (msg : t) : t :=
  mk v (BlockLocatorHashes msg) (HashStop msg).
Definition setBlockLocatorHashes (l : list (option Hash)) (msg : t) : t :=
  mk (ProtocolVersion msg) l (HashStop msg).
Definition setHashStop (h : Hash) (msg : t) : t :=
  mk (ProtocolVersion msg) (BlockLocatorHashes msg) h.

(** AddBlockLocatorHash adds a new block locator hash to the message. *)
Definition AddBlockLocatorHash (hash : option Hash) : M t unit :=
  msg <- get ;;
  if Z.of_nat (length (BlockLocatorHashes msg)) + 1 >? MaxBlockLocatorsPerMsg then
    let str := "too many block locator hashes for message [max " +:+
               fmt_v MaxBlockLocatorsPerMsg +:+ "]" in
    fail (messageError "MsgGetHeaders.AddBlockLocatorHash" str)
  else
    modify (setBlockLocatorHashes (BlockLocatorHashes msg ++ [hash])).

(** The body of [for i := uint64(0); i < count; i++] in [VVSDecode], with
    [n] iterations left.  [&locatorHashes[i]] panics out of range; the
    pointer appended is the one to slot [i], which holds the bytes read. *)
Fixpoint decodeLoop (n : nat) (i : Z) (locatorHashes : list Hash)
  : M (t * Env) unit :=
  match n with
  | O => ret tt
  | S n' =>
    match locatorHashes !! Z.to_nat i with
    | None => panic "index out of range"
    | Some _ =>
      bs <- onEnv (ReadNBytes HashLength) ;;
      let locatorHashes := <[Z.to_nat i := bs]> locatorHashes in
      onSelf (AddBlockLocatorHash (locatorHashes !! Z.to_nat i)) ;;
      decodeLoop n' (i + 1) locatorHashes
    end
  end.

(** VVSDecode decodes r using the bitcoin protocol encoding into the
    receiver. *)
Definition VVSDecode (pver : Z) (enc : MessageEncoding) : M (t * Env) unit :=
  v <- onEnv ReadUint32 ;;
  onSelf (modify (setProtocolVersion v)) ;;
  (* Read num block locator hashes and limit to max. *)
  count <- onEnv (ReadVarInt pver) ;;
  if count >? MaxBlockLocatorsPerMsg then
    let str := "too many block locator hashes for message " +:+
               "[count " +:+ fmt_v count +:+ ", max " +:+
               fmt_v MaxBlockLocatorsPerMsg +:+ "]" in
    fail (messageError "MsgGetHeaders.VVSDecode" str)
  else
    (* locatorHashes := make([]common.Hash, count) *)
    onEnv (make count) ;;
    let locatorHashes := replicate (Z.to_nat count) zeroHash in
    (* msg.BlockLocatorHashes = make([]*common.Hash, 0, count) *)
    onEnv (make count) ;;
    onSelf (modify (setBlockLocatorHashes [])) ;;
    decodeLoop (Z.to_nat count) 0 locatorHashes ;;
    h <- onEnv (ReadNBytes HashLength) ;;
    onSelf (modify (setHashStop h)).

(** [for _, hash := range msg.BlockLocatorHashes]: [hash[:]] on a nil
    pointer panics. *)
Fixpoint encodeLoop (hashes : list (option Hash)) : M Env unit :=
  match hashes with
  | [] => ret tt
  | None :: _ => panic "nil pointer dereference"
  | Some h :: rest => WriteNBytes h ;; encodeLoop rest
  end.

(** VVSEncode encodes the receiver to w using the bitcoin protocol
    encoding. *)
Definition VVSEncode (msg : t) (pver : Z) (enc : MessageEncoding) : M Env unit :=
  (* Limit to max block locator hashes per message. *)
  let count := Z.of_nat (length (BlockLocatorHashes msg)) in
  if count >? MaxBlockLocatorsPerMsg then
    let str := "too many block locator hashes for message " +:+
               "[count " +:+ fmt_v count +:+ ", max " +:+
               fmt_v MaxBlockLocatorsPerMsg +:+ "]" in
    fail (messageError "MsgGetHeaders.VVSEncode" str)
  else
    WriteUint32 (ProtocolVersion msg) ;;
    WriteVarInt pver count ;;
    encodeLoop (BlockLocatorHashes msg) ;;
    WriteNBytes (HashStop msg).

(** Command returns the protocol command string for the message.
    Modelled from the spec: [CmdGetHeaders] is declared outside this file;
    the command tag is "getheaders" (spec 4.3). *)
Definition Command : string := "getheaders".

(** MaxPayloadLength returns the maximum length the payload can be for
    the receiver: version 4 bytes + num block locator hashes (varInt) +
    max allowed block locators + hash stop. *)
Definition MaxPayloadLength (pver : Z) : Z :=
  4 + MaxVarIntPayload + (MaxBlockLocatorsPerMsg * Z.of_nat HashLength) +
  Z.of_nat HashLength.

(** NewMsgGetHeaders returns a new getheaders message: the zero value
    with an empty locator slice (its capacity, [MaxBlockLocatorsPerMsg],
    is a hint and is not represented). *)
Definition NewMsgGetHeaders : t := mk 0 [] zeroHash.

End MsgGetHeaders.

(** ** MsgGetBlocks *)

Module MsgGetBlocks.
Import common serialization.

Record t : Type := mk {
  ProtocolVersion : Z;                      (* uint32 *)
  BlockLocatorHashes : list (option Hash);  (* []*common.Hash *)
  HashStop : Hash
}.

Definition setProtocolVersion (v : Z) (msg : t) : t :=
  mk v (BlockLocatorHashes msg) (HashStop msg).
Definition setBlockLocatorHashes (l : list (option Hash)) (msg : t) : t :=
  mk (ProtocolVersion msg) l (HashStop msg).
Definition setHashStop (h : Hash) (msg : t) : t :=
  mk (ProtocolVersion msg) (BlockLocatorHashes msg) h.

(** AddBlockLocatorHash adds a new block locator hash to the message. *)
Definition AddBlockLocatorHash (hash : option Hash) : M t unit :=
  msg <- get ;;
  if Z.of_nat (length (BlockLocatorHashes msg)) + 1 >? MaxBlockLocatorsPerMsg then
    let str := "too many block locator hashes for message [max " +:+
               fmt_v MaxBlockLocatorsPerMsg +:+ "]" in
    fail (messageError "MsgGetBlocks.AddBlockLocatorHash" str)
  else
    modify (setBlockLocatorHashes (BlockLocatorHashes msg ++ [hash])).

(** The body of the loop of [VVSDecode], with [n] iterations left. *)
Fixpoint decodeLoop (n : nat) (i : Z) (locatorHashes : list Hash)
  : M (t * Env) unit :=
  match n with
  | O => ret tt
  | S n' =>
    match locatorHashes !! Z.to_nat i with
    | None => panic "index out of range"
    | Some _ =>
      bs <- onEnv (ReadNBytes HashLength) ;;
      let locatorHashes := <[Z.to_nat i := bs]> locatorHashes in
      onSelf (AddBlockLocatorHash (locatorHashes !! Z.to_nat i)) ;;
      decodeLoop n' (i + 1) locatorHashes
    end
  end.

(** VVSDecode decodes r using the bitcoin protocol encoding into the
    receiver. *)
Definition VVSDecode (pver : Z) (enc : MessageEncoding) : M (t * Env) unit :=
  v <- onEnv ReadUint32 ;;
  onSelf (modify (setProtocolVersion v)) ;;
  (* Read num block locator hashes and limit to max. *)
  count <- onEnv (ReadVarInt pver) ;;
  if count >? MaxBlockLocatorsPerMsg then
    let str := "too many block locator hashes for message " +:+
               "[count " +:+ fmt_v count +:+ ", max " +:+
               fmt_v MaxBlockLocatorsPerMsg +:+ "]" in
    fail (messageError "MsgGetBlocks.VVSDecode" str)
  else
    (* locatorHashes := make([]common.Hash, count) *)
    onEnv (make count) ;;
    let locatorHashes := replicate (Z.to_nat count) zeroHash in
    (* msg.BlockLocatorHashes = make([]*common.Hash, 0, count) *)
    onEnv (make count) ;;
    onSelf (modify (setBlockLocatorHashes [])) ;;
    decodeLoop (Z.to_nat count) 0 locatorHashes ;;
    h <- onEnv (ReadNBytes HashLength) ;;
    onSelf (modify (setHashStop h)).

(** [for _, hash := range msg.BlockLocatorHashes]. *)
Fixpoint encodeLoop (hashes : list (option Hash)) : M Env unit :=
  match hashes with
  | [] => ret tt
  | None :: _ => panic "nil pointer dereference"
  | Some h :: rest => WriteNBytes h ;; encodeLoop rest
  end.

(** VVSEncode encodes the receiver to w using the bitcoin protocol
    encoding. *)
Definition VVSEncode (msg : t) (pver : Z) (enc : MessageEncoding) : M Env unit :=
  let count := Z.of_nat (length (BlockLocatorHashes msg)) in
  if count >? MaxBlockLocatorsPerMsg then
    let str := "too many block locator hashes for message " +:+
               "[count " +:+ fmt_v count +:+ ", max " +:+
               fmt_v MaxBlockLocatorsPerMsg +:+ "]" in
    fail (messageError "MsgGetBlocks.VVSEncode" str)
  else
    WriteUint32 (ProtocolVersion msg) ;;
    WriteVarInt pver count ;;
    encodeLoop (BlockLocatorHashes msg) ;;
    WriteNBytes (HashStop msg).

(** Command returns the protocol command string for the message.
    Modelled from the spec: [CmdGetBlocks] is declared outside this file;
    the command tag is "getblocks" (spec 4.3). *)
Definition Command : string := "getblocks".

(** MaxPayloadLength: protocol version 4 bytes + num hashes (varInt) +
    max block locator hashes + hash stop. *)
Definition MaxPayloadLength (pver : Z) : Z :=
  4 + MaxVarIntPayload + (MaxBlockLocatorsPerMsg * Z.of_nat HashLength) +
  Z.of_nat HashLength.

(** NewMsgGetBlocks returns a new getblocks message with the given stop
    hash; [*hashStop] panics on nil.  [pv] is [common.ProtocolVersion],
    a constant declared outside this file. *)
Definition NewMsgGetBlocks (pv : Z) (hashStop : option Hash) : res t :=
  match hashStop with
  | None => Panic "nil pointer dereference"
  | Some h => Ok (mk pv [] h)
  end.

End MsgGetBlocks.

(** * Vocabulary of the properties

    What follows is not in the source: functional readings of the two
    codecs (each is proved below to be what the embedded function
    computes), the correspondence between the two messages,
    well-formedness, and sample inputs. *)

(** ** Functional readings *)

(** The error of a read that found [bs] and needed more. *)
Definition eofError (bs : list byte) : error :=
  match bs with [] => EOF | _ => ErrUnexpectedEOF end.

(** The bytes [WriteVarInt] writes for [val]. *)
Definition varint_bytes (val : Z) : list byte :=
  if val <? 0xfd then [byte_of_Z val]
  else if val <=? 0xffff then byte_of_Z 0xfd :: le_bytes 2 val
  else if val <=? 0xffffffff then byte_of_Z 0xfe :: le_bytes 4 val
  else byte_of_Z 0xff :: le_bytes 8 val.

(** [n] hashes read one after the other from [bs]: the hashes completely
    read, the input left, and the error that stopped the reading, if any. *)
Fixpoint readHashes (n : nat) (bs : list byte)
  : list common.Hash * list byte * option error :=
  match n with
  | O => ([], bs, None)
  | S n' =>
    if decide (common.HashLength <= length bs)%nat then
      match readHashes n' (drop common.HashLength bs) with
      | (hs, rest, err) => (take common.HashLength bs :: hs, rest, err)
      end
    else ([], [], Some (eofError bs))
  end.

(** The description of the error of the count checks of the codec. *)
Definition tooManyOnWire (count : Z) : string :=
  "too many block locator hashes for message " +:+
  "[count " +:+ fmt_v count +:+ ", max " +:+
  fmt_v MaxBlockLocatorsPerMsg +:+ "]".

(** The decoder as one case analysis on the input; [who] names the
    function that reports a count above the maximum.  See
    [GetHeaders_VVSDecode_eq] and [GetBlocks_VVSDecode_eq']. *)
Definition decode_sem (who : string) (pver : Z) (s : MsgGetHeaders.t * Env)
  : (MsgGetHeaders.t * Env) * res unit :=
  let msg := fst s in
  match serialization.ReadUint32 (snd s) with
  | (e1, Ok v) =>
    let msg1 := MsgGetHeaders.setProtocolVersion v msg in
    match serialization.ReadVarInt pver e1 with
    | (e2, Ok count) =>
      if count >? MaxBlockLocatorsPerMsg then
        ((msg1, e2), Err (MessageError who (tooManyOnWire count)))
      else
        match readHashes (Z.to_nat count) (rbuf e2) with
        | (hs, rest, err) =>
          let msg2 := MsgGetHeaders.setBlockLocatorHashes (Some <$> hs) msg1 in
          let e3 := mkEnv rest (wbuf e2) (count :: count :: made e2) in
          match err with
          | Some er => ((msg2, e3), Err er)
          | None =>
            match ReadFull common.HashLength e3 with
            | (e4, Ok h) => ((MsgGetHeaders.setHashStop h msg2, e4), Ok tt)
            | (e4, Err er) => ((msg2, e4), Err er)
            | (e4, Panic w) => ((msg2, e4), Panic w)
            end
          end
        end
    | (e2, Err er) => ((msg1, e2), Err er)
    | (e2, Panic w) => ((msg1, e2), Panic w)
    end
  | (e1, Err er) => ((msg, e1), Err er)
  | (e1, Panic w) => ((msg, e1), Panic w)
  end.

(** How the loop of the decoder ends. *)
Definition resOfErr (err : option error) : res unit :=
  match err with None => Ok tt | Some er => Err er end.

(** ** The two messages side by side *)

(** The same fields in the other message. *)
Definition asHeaders (b : MsgGetBlocks.t) : MsgGetHeaders.t :=
  MsgGetHeaders.mk (MsgGetBlocks.ProtocolVersion b)
                   (MsgGetBlocks.BlockLocatorHashes b)
                   (MsgGetBlocks.HashStop b).

Definition asBlocks (h : MsgGetHeaders.t) : MsgGetBlocks.t :=
  MsgGetBlocks.mk (MsgGetHeaders.ProtocolVersion h)
                  (MsgGetHeaders.BlockLocatorHashes h)
                  (MsgGetHeaders.HashStop h).

(** The name under which [MsgGetBlocks] reports what [MsgGetHeaders]
    reports as [f]. *)
Definition blocksFunc (f : string) : string :=
  if String.prefix "MsgGetHeaders." f
  then "MsgGetBlocks." +:+ String.substring 14 (String.length f - 14) f
  else f.

(** An error, a result and a run of [MsgGetHeaders] as [MsgGetBlocks]
    reports them. *)
Definition blocksErr (e : error) : error :=
  match e with
  | MessageError f d => MessageError (blocksFunc f) d
  | _ => e
  end.

Definition blocksRes {A} (r : res A) : res A :=
  match r with Err e => Err (blocksErr e) | _ => r end.

Definition blocksRun {A} (x : (MsgGetHeaders.t * Env) * res A)
  : (MsgGetBlocks.t * Env) * res A :=
  ((asBlocks (fst (fst x)), snd (fst x)), blocksRes (snd x)).

(** The decoder of [MsgGetBlocks] in the terms of [decode_sem]. *)
Definition inBlocks (x : (MsgGetHeaders.t * Env) * res unit)
  : (MsgGetBlocks.t * Env) * res unit :=
  ((asBlocks (fst (fst x)), snd (fst x)), snd x).

(** The two messages report the same outcome: the same value, the same
    panic, or the same error up to the name of the reporting function. *)
Definition sameOutcome (rb rh : res unit) : Prop :=
  match rb, rh with
  | Ok _, Ok _ => True
  | Err eb, Err eh => eb = blocksErr eh
  | Panic wb, Panic wh => wb = wh
  | _, _ => False
  end.

(** ** The encoder *)

(** The bytes the loop of the encoder writes, and whether it completes:
    it stops at the first nil locator. *)
Fixpoint locatorBytes (hashes : list (option common.Hash)) : list byte * bool :=
  match hashes with
  | [] => ([], true)
  | None :: _ => ([], false)
  | Some h :: rest =>
    match locatorBytes rest with (bs, ok) => (h ++ bs, ok) end
  end.

(** The call environment after [bs] more bytes were written. *)
Definition appendOut (e : Env) (bs : list byte) : Env :=
  mkEnv (rbuf e) (wbuf e ++ bs) (made e).

(** The encoder as one case analysis on the message.  See
    [GetHeaders_VVSEncode_eq] and [GetBlocks_VVSEncode_eq]. *)
Definition encode_sem (who : string) (msg : MsgGetHeaders.t) (e : Env)
  : Env * res unit :=
  let count := Z.of_nat (length (MsgGetHeaders.BlockLocatorHashes msg)) in
  if count >? MaxBlockLocatorsPerMsg then
    (e, Err (MessageError who (tooManyOnWire count)))
  else
    let header := le_bytes 4 (MsgGetHeaders.ProtocolVersion msg) ++
                  varint_bytes count in
    match locatorBytes (MsgGetHeaders.BlockLocatorHashes msg) with
    | (bs, true) =>
      (appendOut e (header ++ bs ++ MsgGetHeaders.HashStop msg), Ok tt)
    | (bs, false) =>
      (appendOut e (header ++ bs), Panic "nil pointer dereference")
    end.

(** ** Well-formed messages *)

(** The values a Go program can build: a [uint32] version, and hashes of
    [HashLength] bytes behind every non-nil locator and in [HashStop]. *)
Definition wf_locator (p : option common.Hash) : bool :=
  match p with None => true | Some h => common.wf_hash h end.

Definition wf_msg (msg : MsgGetHeaders.t) : bool :=
  (0 <=? MsgGetHeaders.ProtocolVersion msg) &&
  (MsgGetHeaders.ProtocolVersion msg <? 2 ^ 32) &&
  forallb wf_locator (MsgGetHeaders.BlockLocatorHashes msg) &&
  common.wf_hash (MsgGetHeaders.HashStop msg).

(** No locator is the nil pointer. *)
Definition no_nil (msg : MsgGetHeaders.t) : bool :=
  forallb (fun p : option common.Hash => bool_decide (is_Some p))
          (MsgGetHeaders.BlockLocatorHashes msg).

(** The invariant of the data model. *)
Definition within_bound (l : list (option common.Hash)) : Prop :=
  0 <= Z.of_nat (length l) <= MaxBlockLocatorsPerMsg.

(** ** Callers and sample inputs *)

(** A caller that calls the mutator once per element of [hashes], whatever
    each call returns, and collects the results. *)
Fixpoint callEach {T : Type} (add : option common.Hash -> M T unit)
    (hashes : list (option common.Hash)) (msg : T) : T * list (res unit) :=
  match hashes with
  | [] => (msg, [])
  | h :: rest =>
    match add h msg with
    | (msg1, r) =>
      match callEach add rest msg1 with (msg2, rs) => (msg2, r :: rs) end
    end
  end.

(** The description of the error of the mutator. *)
Definition tooManyToAdd : string :=
  "too many block locator hashes for message [max 500]".

(** The hashes behind the non-nil locators. *)
Definition hashesOf (l : list (option common.Hash)) : list common.Hash :=
  omap id l.

(** The payload of a message whose locators are all non-nil. *)
Definition payload (msg : MsgGetHeaders.t) : list byte :=
  le_bytes 4 (MsgGetHeaders.ProtocolVersion msg) ++
  varint_bytes (Z.of_nat (length (MsgGetHeaders.BlockLocatorHashes msg))) ++
  concat (hashesOf (MsgGetHeaders.BlockLocatorHashes msg)) ++
  MsgGetHeaders.HashStop msg.

(** A request with two locators, and one with the most locators allowed. *)
Definition twoLocators : MsgGetHeaders.t :=
  MsgGetHeaders.mk 70001
    [Some (replicate 32 x01); Some (replicate 32 x02)] (replicate 32 xff).


(** The header of a payload: the version and the declared locator count. *)
Definition readHeader (pver : Z) : M Env (Z * Z) :=
  v <- serialization.ReadUint32 ;;
  count <- serialization.ReadVarInt pver ;;
  ret (v, count).

(** A stream declaring 10,000,000 locator hashes. *)
Definition hostileStream : list byte :=
  le_bytes 4 70001 ++ [xfe; x80; x96; x98; x00] ++ replicate 5 x03.

(** A stream declaring two locator hashes and holding one and a bit. *)
Definition cutStream : list byte :=
  le_bytes 4 70001 ++ [x02] ++ replicate 32 x03 ++ replicate 5 x04.

(** The count the stream declares, when its header is complete. *)
Definition declaredCount (pver : Z) (bs : list byte) : option Z :=
  match readHeader pver (reading bs) with
  | (_, Ok (_, count)) => Some count
  | _ => None
  end.

(** A stream is truncated when it is shorter than its header, the
    [count] * 32 bytes of locator hashes and the stop hash require. *)
Definition truncated (pver : Z) (bs : list byte) : bool :=
  match readHeader pver (reading bs) with
  | (e2, Ok (_, count)) => Z.of_nat (length (rbuf e2)) <? count * 32 + 32
  | _ => true
  end.

(** The declared count, if the stream gets that far, passes the check. *)
Definition countWithinBound (pver : Z) (bs : list byte) : bool :=
  match declaredCount pver bs with
  | Some count => count <=? MaxBlockLocatorsPerMsg
  | None => true
  end.


(** A stream whose count, 1, is written in the three-byte form. *)
Definition wideCountStream : list byte :=
  le_bytes 4 70001 ++ [xfd; x01; x00] ++ replicate 32 x05 ++ replicate 32 x06.

(** The call environment with [extra] more bytes at the end of the input. *)
Definition extendIn (e : Env) (extra : list byte) : Env :=
  mkEnv (rbuf e ++ extra) (wbuf e) (made e).

(** * Properties *)

(** ** Bytes *)

Lemma Z_of_byte_range (b : byte) : 0 <= Z_of_byte b < 256.
Proof.
  unfold Z_of_byte. pose proof (Byte.to_N_bounded b). lia.
Qed.

Lemma byte_of_Z_of_byte (b : byte) : byte_of_Z (Z_of_byte b) = b.
Proof.
  unfold byte_of_Z. pose proof (Z_of_byte_range b) as Hb.
  rewrite Z.mod_small by exact Hb.
  unfold Z_of_byte. rewrite N2Z.id, Byte.of_to_N. reflexivity.
Qed.

Lemma Z_of_byte_of_Z (z : Z) : Z_of_byte (byte_of_Z z) = z mod 256.
Proof.
  pose proof (Z.mod_pos_bound z 256 ltac:(lia)) as Hz.
  unfold byte_of_Z.
  destruct (Byte.of_N (Z.to_N (z mod 256))) as [b|] eqn:E.
  - apply Byte.to_of_N in E. unfold Z_of_byte. simpl. rewrite E. lia.
  - apply Byte.of_N_None_iff in E. lia.
Qed.

Lemma length_le_bytes (n : nat) (v : Z) : length (le_bytes n v) = n.
Proof. revert v. induction n as [|n IH]; intros v; simpl; [|rewrite IH]; reflexivity. Qed.

Lemma le_value_le_bytes (n : nat) (v : Z) :
  0 <= v < 256 ^ Z.of_nat n -> le_value (le_bytes n v) = v.
Proof.
  revert v. induction n as [|n IH]; intros v Hv.
  - simpl in *. lia.
  - cbn [le_bytes le_value].
    rewrite Nat2Z.inj_succ, Z.pow_succ_r in Hv by lia.
    rewrite Z_of_byte_of_Z, IH.
    + pose proof (Z.div_mod v 256). lia.
    + split; [apply Z.div_pos; lia | apply Z.div_lt_upper_bound; lia].
Qed.

Lemma le_value_range (bs : list byte) :
  0 <= le_value bs < 256 ^ Z.of_nat (length bs).
Proof.
  induction bs as [|b bs IH]; cbn [le_value length].
  - simpl. lia.
  - rewrite Nat2Z.inj_succ, Z.pow_succ_r by lia.
    pose proof (Z_of_byte_range b). lia.
Qed.

Lemma le_bytes_le_value (bs : list byte) :
  le_bytes (length bs) (le_value bs) = bs.
Proof.
  induction bs as [|b bs IH]; cbn [le_value length le_bytes]; [reflexivity|].
  pose proof (Z_of_byte_range b) as Hb.
  assert (Hm : (Z_of_byte b + 256 * le_value bs) mod 256 = Z_of_byte b).
  { rewrite (Z.mul_comm 256), Z.mod_add by lia.
    apply Z.mod_small; lia. }
  replace (byte_of_Z (Z_of_byte b + 256 * le_value bs)) with b.
  2:{ unfold byte_of_Z. rewrite Hm.
      unfold Z_of_byte. rewrite N2Z.id, Byte.of_to_N. reflexivity. }
  replace ((Z_of_byte b + 256 * le_value bs) / 256) with (le_value bs).
  2:{ rewrite (Z.mul_comm 256), Z.div_add by lia.
      rewrite Z.div_small by lia. lia. }
  rewrite IH. reflexivity.
Qed.

(** ** The stream *)

Lemma eofError_StreamFailure (bs : list byte) : StreamFailure (eofError bs).
Proof. destruct bs; exact I. Qed.

Lemma ReadFull_ok (n : nat) (e : Env) :
  (n <= length (rbuf e))%nat ->
  ReadFull n e = (mkEnv (drop n (rbuf e)) (wbuf e) (made e), Ok (take n (rbuf e))).
Proof. intros H. unfold ReadFull. rewrite decide_True by exact H. reflexivity. Qed.

Lemma ReadFull_short (n : nat) (e : Env) :
  (length (rbuf e) < n)%nat ->
  ReadFull n e = (mkEnv [] (wbuf e) (made e), Err (eofError (rbuf e))).
Proof.
  intros H. unfold ReadFull. rewrite decide_False by lia. reflexivity.
Qed.

Lemma ReadFull_app (bs rest w : list byte) (m : list Z) :
  ReadFull (length bs) (mkEnv (bs ++ rest) w m) = (mkEnv rest w m, Ok bs).
Proof.
  rewrite ReadFull_ok by (simpl; rewrite length_app; lia).
  simpl. rewrite drop_app_length, take_app_length. reflexivity.
Qed.

(** What a read can do: it never panics, never reports a protocol
    violation, never writes nor allocates, and returns the bytes asked. *)
Lemma ReadFull_inv (n : nat) (e e' : Env) (r : res (list byte)) :
  ReadFull n e = (e', r) ->
  wbuf e' = wbuf e /\ made e' = made e /\
  ((exists bs, r = Ok bs /\ length bs = n /\ rbuf e = bs ++ rbuf e') \/
   (r = Err (eofError (rbuf e)) /\ (length (rbuf e) < n)%nat /\ rbuf e' = [])).
Proof.
  unfold ReadFull. case_decide as Hn; intros [= <- <-]; simpl.
  - split; [reflexivity|]. split; [reflexivity|]. left.
    exists (take n (rbuf e)). split; [reflexivity|].
    split; [rewrite length_take; lia | symmetry; apply take_drop].
  - split; [reflexivity|]. split; [reflexivity|]. right.
    split; [reflexivity|]. split; [lia | reflexivity].
Qed.

(** ** CompactSize integers *)

Lemma WriteVarInt_eq (pver val : Z) (e : Env) :
  serialization.WriteVarInt pver val e =
  (mkEnv (rbuf e) (wbuf e ++ varint_bytes val) (made e), Ok tt).
Proof.
  unfold serialization.WriteVarInt, varint_bytes.
  repeat case_match; reflexivity.
Qed.



Lemma ReadVarInt_varint_bytes (pver val : Z) (rest w : list byte) (m : list Z) :
  0 <= val < 2 ^ 64 ->
  serialization.ReadVarInt pver (mkEnv (varint_bytes val ++ rest) w m) =
  (mkEnv rest w m, Ok val).
Proof.
  intros Hv.
  assert (Hd : forall d bs,
    ReadFull 1 (mkEnv ((byte_of_Z d :: bs) ++ rest) w m) =
    (mkEnv (bs ++ rest) w m, Ok [byte_of_Z d])).
  { intros d bs. apply (ReadFull_app [byte_of_Z d]). }
  assert (Hb : forall n, ReadFull n (mkEnv (le_bytes n val ++ rest) w m) =
                         (mkEnv rest w m, Ok (le_bytes n val))).
  { intros n. rewrite <- (length_le_bytes n val) at 1. apply ReadFull_app. }
  assert (Hl : forall d, le_value [byte_of_Z d] = d mod 256).
  { intros d. cbn [le_value]. rewrite Z_of_byte_of_Z. lia. }
  unfold varint_bytes.
  destruct (val <? 253) eqn:H1; [apply Z.ltb_lt in H1 | apply Z.ltb_ge in H1].
  { unfold serialization.ReadVarInt, bind.
    rewrite (Hd val []). cbn zeta. rewrite Hl, Z.mod_small by lia.
    rewrite !(proj2 (Z.eqb_neq _ _)) by lia. reflexivity. }
  destruct (val <=? 65535) eqn:H2; [apply Z.leb_le in H2 | apply Z.leb_gt in H2].
  { unfold serialization.ReadVarInt, bind.
    rewrite Hd. cbn zeta. rewrite Hl.
    change (253 mod 256) with 253. cbn [Z.eqb Pos.eqb]. rewrite Hb.
    unfold ret. rewrite le_value_le_bytes by (simpl; lia). reflexivity. }
  destruct (val <=? 4294967295) eqn:H3; [apply Z.leb_le in H3 | apply Z.leb_gt in H3].
  { unfold serialization.ReadVarInt, bind.
    rewrite Hd. cbn zeta. rewrite Hl.
    change (254 mod 256) with 254. cbn [Z.eqb Pos.eqb]. rewrite Hb.
    unfold ret. rewrite le_value_le_bytes by (simpl; lia). reflexivity. }
  unfold serialization.ReadVarInt, bind.
  rewrite Hd. cbn zeta. rewrite Hl.
  change (255 mod 256) with 255. cbn [Z.eqb Pos.eqb]. rewrite Hb.
  unfold ret. rewrite le_value_le_bytes by (simpl; lia). reflexivity.
Qed.

Lemma ReadUint32_inv (e e' : Env) (r : res Z) :
  serialization.ReadUint32 e = (e', r) ->
  wbuf e' = wbuf e /\ made e' = made e /\
  ((exists bs, r = Ok (le_value bs) /\ length bs = 4%nat /\
               rbuf e = bs ++ rbuf e') \/
   (r = Err (eofError (rbuf e)) /\ (length (rbuf e) < 4)%nat /\ rbuf e' = [])).
Proof.
  unfold serialization.ReadUint32, bind, ret.
  destruct (ReadFull 4 e) as [e1 r1] eqn:E.
  apply ReadFull_inv in E as (Hw & Hm & [(bs & -> & Hl & Hr) | (-> & Hl & Hr)]);
    intros [= <- <-]; (split; [exact Hw|]); (split; [exact Hm|]).
  - left. exists bs. auto.
  - right. auto.
Qed.

(** The count [ReadVarInt] returns is a [uint64]; the call consumes a
    prefix of the input, and fails only when the input runs short. *)
Lemma ReadVarInt_inv (pver : Z) (e e' : Env) (r : res Z) :
  serialization.ReadVarInt pver e = (e', r) ->
  wbuf e' = wbuf e /\ made e' = made e /\
  ((exists c bs, r = Ok c /\ 0 <= c < 2 ^ 64 /\ rbuf e = bs ++ rbuf e') \/
   (exists er, r = Err er /\ StreamFailure er /\ rbuf e' = [])).
Proof.
  unfold serialization.ReadVarInt. unfold bind at 1.
  destruct (ReadFull 1 e) as [e1 r1] eqn:E1.
  apply ReadFull_inv in E1 as (Hw1 & Hm1 & [(d & -> & Hl1 & Hr1) | (-> & Hl1 & Hr1)]).
  2:{ intros [= <- <-]. split; [exact Hw1|]. split; [exact Hm1|]. right.
      eexists. split; [reflexivity|]. split; [apply eofError_StreamFailure | exact Hr1]. }
  assert (Hwide : forall n, (n <= 8)%nat ->
    (bs <- ReadFull n ;; ret (le_value bs)) e1 = (e', r) ->
    wbuf e' = wbuf e /\ made e' = made e /\
    ((exists c bs, r = Ok c /\ 0 <= c < 2 ^ 64 /\ rbuf e = bs ++ rbuf e') \/
     (exists er, r = Err er /\ StreamFailure er /\ rbuf e' = []))).
  { intros n Hn. unfold bind, ret.
    destruct (ReadFull n e1) as [e2 r2] eqn:E2.
    apply ReadFull_inv in E2 as (Hw2 & Hm2 & [(bs & -> & Hl2 & Hr2) | (-> & Hl2 & Hr2)]);
      intros [= <- <-]; (split; [congruence|]); (split; [congruence|]).
    - left. exists (le_value bs), (d ++ bs). split; [reflexivity|]. split.
      + pose proof (le_value_range bs) as Hb. rewrite Hl2 in Hb.
        assert (256 ^ Z.of_nat n <= 256 ^ 8) by (apply Z.pow_le_mono_r; lia).
        change (2 ^ 64) with (256 ^ 8). lia.
      + rewrite Hr1, Hr2, app_assoc. reflexivity.
    - right. eexists. split; [reflexivity|].
      split; [apply eofError_StreamFailure | exact Hr2]. }
  cbn zeta.
  destruct (le_value d =? 255); [apply Hwide; lia|].
  destruct (le_value d =? 254); [apply Hwide; lia|].
  destruct (le_value d =? 253); [apply Hwide; lia|].
  unfold ret. intros [= <- <-]. split; [exact Hw1|]. split; [exact Hm1|]. left.
  exists (le_value d), d. split; [reflexivity|]. split; [|exact Hr1].
  pose proof (le_value_range d) as Hb. rewrite Hl1 in Hb.
  change (256 ^ Z.of_nat 1) with 256 in Hb. lia.
Qed.

(** ** A functional reading of the decoder *)

Lemma GetHeaders_decodeLoop_eq (n : nat) :
  forall (i : Z) (lh : list common.Hash) (msg : MsgGetHeaders.t) (e : Env),
  0 <= i ->
  (Z.to_nat i + n <= length lh)%nat ->
  Z.of_nat (length (MsgGetHeaders.BlockLocatorHashes msg)) + Z.of_nat n
    <= MaxBlockLocatorsPerMsg ->
  MsgGetHeaders.decodeLoop n i lh (msg, e) =
  match readHashes n (rbuf e) with
  | (hs, rest, err) =>
    ((MsgGetHeaders.setBlockLocatorHashes
        (MsgGetHeaders.BlockLocatorHashes msg ++ (Some <$> hs)) msg,
      mkEnv rest (wbuf e) (made e)), resOfErr err)
  end.
Proof.
  induction n as [|n IH]; intros i lh msg e Hi Hlen Hmax.
  - destruct msg, e. cbn. rewrite app_nil_r. reflexivity.
  - cbn [MsgGetHeaders.decodeLoop readHashes].
    destruct (lookup_lt_is_Some_2 lh (Z.to_nat i) ltac:(lia)) as [h0 ->].
    unfold bind at 1, onEnv at 1, serialization.ReadNBytes, ReadFull.
    cbn [fst snd].
    case_decide as Hrd.
    + unfold bind at 1, onSelf at 1. cbn [fst snd].
      rewrite list_lookup_insert_eq by lia.
      unfold MsgGetHeaders.AddBlockLocatorHash at 1, bind at 1, get.
      destruct (_ >? _) eqn:Hgt; [apply Z.gtb_lt in Hgt; lia|].
      unfold modify. cbn [fst snd].
      rewrite IH; cbn [rbuf wbuf made MsgGetHeaders.BlockLocatorHashes
                       MsgGetHeaders.setBlockLocatorHashes];
        [ | lia | rewrite length_insert; lia | rewrite length_app; simpl; lia ].
      destruct (readHashes n _) as [[hs rest] err].
      rewrite fmap_cons, <- app_assoc. reflexivity.
    + destruct msg. cbn. rewrite app_nil_r. reflexivity.
Qed.

Lemma GetHeaders_VVSDecode_eq (pver : Z) (enc : MessageEncoding)
    (s : MsgGetHeaders.t * Env) :
  MsgGetHeaders.VVSDecode pver enc s =
  decode_sem "MsgGetHeaders.VVSDecode" pver s.
Proof.
  destruct s as [msg e]. unfold MsgGetHeaders.VVSDecode, decode_sem.
  unfold bind at 1, onEnv at 1. cbn [fst snd].
  destruct (serialization.ReadUint32 e) as [e1 [v|er|w]]; try reflexivity.
  unfold bind at 1, onSelf at 1, modify at 1. cbn [fst snd].
  unfold bind at 1, onEnv at 1. cbn [fst snd].
  destruct (serialization.ReadVarInt pver e1) as [e2 [count|er|w]] eqn:Ec;
    try reflexivity.
  apply ReadVarInt_inv in Ec as (_ & _ & [(c & bs & [= <-] & Hc & _) | (er & [=] & _)]).
  fold (tooManyOnWire count). unfold messageError.
  destruct (count >? MaxBlockLocatorsPerMsg) eqn:Hgt; [reflexivity|].
  assert (count <= MaxBlockLocatorsPerMsg) as Hle.
  { rewrite Z.gtb_ltb in Hgt. apply Z.ltb_ge in Hgt. exact Hgt. }
  unfold bind at 1, onEnv at 1, make at 1. cbn [fst snd].
  rewrite (proj2 (Z.ltb_ge count 0)) by lia.
  unfold bind at 1, onEnv at 1, make at 1. cbn [fst snd].
  rewrite (proj2 (Z.ltb_ge count 0)) by lia.
  unfold bind at 1, onSelf at 1, modify at 1. cbn [fst snd].
  unfold bind at 1.
  rewrite GetHeaders_decodeLoop_eq;
    [ | lia | rewrite length_replicate; lia | simpl; lia ].
  cbn [rbuf wbuf made MsgGetHeaders.BlockLocatorHashes
       MsgGetHeaders.setBlockLocatorHashes app].
  destruct (readHashes (Z.to_nat count) (rbuf e2)) as [[hs rest] [er|]];
    cbn [resOfErr]; [reflexivity|].
  unfold bind, onEnv, serialization.ReadNBytes. cbn [fst snd].
  destruct (ReadFull common.HashLength _) as [e4 [h|er|w]]; reflexivity.
Qed.

(** ** The two variants side by side *)

Lemma blocksErr_stream (er : error) : StreamFailure er -> blocksErr er = er.
Proof. destruct er; simpl; [intros []|reflexivity|reflexivity]. Qed.

Lemma asHeaders_asBlocks (h : MsgGetHeaders.t) : asHeaders (asBlocks h) = h.
Proof. destruct h; reflexivity. Qed.

Lemma asBlocks_asHeaders (b : MsgGetBlocks.t) : asBlocks (asHeaders b) = b.
Proof. destruct b; reflexivity. Qed.

Lemma GetBlocks_AddBlockLocatorHash_sim (hash : option common.Hash)
    (b : MsgGetBlocks.t) :
  MsgGetBlocks.AddBlockLocatorHash hash b =
  match MsgGetHeaders.AddBlockLocatorHash hash (asHeaders b) with
  | (h', r) => (asBlocks h', blocksRes r)
  end.
Proof.
  destruct b as [v l s].
  unfold MsgGetBlocks.AddBlockLocatorHash, MsgGetHeaders.AddBlockLocatorHash,
    bind, get, modify, fail, asHeaders. cbn.
  destruct (_ >? _); reflexivity.
Qed.

Lemma GetBlocks_decodeLoop_sim (n : nat) :
  forall (i : Z) (lh : list common.Hash) (b : MsgGetBlocks.t) (e : Env),
  MsgGetBlocks.decodeLoop n i lh (b, e) =
  blocksRun (MsgGetHeaders.decodeLoop n i lh (asHeaders b, e)).
Proof.
  induction n as [|n IH]; intros i lh b e.
  - unfold blocksRun. cbn. rewrite asBlocks_asHeaders. reflexivity.
  - cbn [MsgGetBlocks.decodeLoop MsgGetHeaders.decodeLoop].
    destruct (lh !! Z.to_nat i) as [h0|].
    2:{ unfold blocksRun. cbn. rewrite asBlocks_asHeaders. reflexivity. }
    unfold bind at 1 3, onEnv at 1 2. cbn [fst snd].
    unfold serialization.ReadNBytes, ReadFull.
    case_decide as Hrd.
    2:{ unfold blocksRun; cbn. rewrite asBlocks_asHeaders.
        destruct (rbuf e); reflexivity. }
    unfold bind at 1 2, onSelf at 1 2. cbn [fst snd].
    rewrite GetBlocks_AddBlockLocatorHash_sim.
    destruct (MsgGetHeaders.AddBlockLocatorHash _ (asHeaders b)) as [h' [[]|er|w]];
      cbn [blocksRes].
    + rewrite IH, asHeaders_asBlocks. reflexivity.
    + reflexivity.
    + reflexivity.
Qed.

Lemma GetBlocks_VVSDecode_eq (pver : Z) (enc : MessageEncoding)
    (b : MsgGetBlocks.t) (e : Env) :
  MsgGetBlocks.VVSDecode pver enc (b, e) =
  blocksRun (decode_sem "MsgGetHeaders.VVSDecode" pver (asHeaders b, e)).
Proof.
  unfold MsgGetBlocks.VVSDecode, decode_sem.
  unfold bind at 1, onEnv at 1. cbn [fst snd].
  destruct (serialization.ReadUint32 e) as [e1 [v|er|w]] eqn:Ev.
  2,3: apply ReadUint32_inv in Ev
         as (_ & _ & [(bs & [=] & _) | ([= ->] & _)]);
       unfold blocksRun; cbn; destruct b, (rbuf e); reflexivity.
  unfold bind at 1, onSelf at 1, modify at 1. cbn [fst snd].
  unfold bind at 1, onEnv at 1. cbn [fst snd].
  destruct (serialization.ReadVarInt pver e1) as [e2 [count|er|w]] eqn:Ec.
  2,3: apply ReadVarInt_inv in Ec
         as (_ & _ & [(c & bs & [=] & _) | (er' & [= ->] & Hs & _)]);
       unfold blocksRun; cbn; rewrite (blocksErr_stream _ Hs);
       destruct b; reflexivity.
  apply ReadVarInt_inv in Ec as (_ & _ & [(c & bs & [= <-] & Hc & _) | (er & [=] & _)]).
  fold (tooManyOnWire count). unfold messageError.
  destruct (count >? MaxBlockLocatorsPerMsg) eqn:Hgt; [destruct b; reflexivity|].
  assert (count <= MaxBlockLocatorsPerMsg) as Hle.
  { rewrite Z.gtb_ltb in Hgt. apply Z.ltb_ge in Hgt. exact Hgt. }
  unfold bind at 1, onEnv at 1, make at 1. cbn [fst snd].
  rewrite (proj2 (Z.ltb_ge count 0)) by lia.
  unfold bind at 1, onEnv at 1, make at 1. cbn [fst snd].
  rewrite (proj2 (Z.ltb_ge count 0)) by lia.
  unfold bind at 1, onSelf at 1, modify at 1. cbn [fst snd].
  unfold bind at 1.
  rewrite GetBlocks_decodeLoop_sim, GetHeaders_decodeLoop_eq;
    [ | lia | rewrite length_replicate; lia | simpl; lia ].
  cbn [rbuf wbuf made].
  destruct (readHashes (Z.to_nat count) (rbuf e2)) as [[hs rest] [er|]];
    unfold blocksRun at 1; cbn [resOfErr blocksRes fst snd].
  { destruct b; reflexivity. }
  unfold bind, onEnv, onSelf, modify, serialization.ReadNBytes. cbn [fst snd].
  destruct (ReadFull common.HashLength _) as [e4 [h|er|w]] eqn:Eh;
    apply ReadFull_inv in Eh
      as (_ & _ & [(bs' & [=] & _) | ([=] & _)]); subst;
    unfold blocksRun; destruct b; cbn; [reflexivity|].
  rewrite (blocksErr_stream _ (eofError_StreamFailure _)). reflexivity.
Qed.

Lemma GetBlocks_VVSDecode_sim (pver : Z) (enc : MessageEncoding)
    (b : MsgGetBlocks.t) (e : Env) :
  MsgGetBlocks.VVSDecode pver enc (b, e) =
  blocksRun (MsgGetHeaders.VVSDecode pver enc (asHeaders b, e)).
Proof.
  rewrite GetBlocks_VVSDecode_eq, GetHeaders_VVSDecode_eq. reflexivity.
Qed.

(** ** A functional reading of the encoder *)

Lemma appendOut_nil (e : Env) : appendOut e [] = e.
Proof. destruct e. unfold appendOut. cbn. rewrite app_nil_r. reflexivity. Qed.

Lemma appendOut_app (e : Env) (a b : list byte) :
  appendOut (appendOut e a) b = appendOut e (a ++ b).
Proof. unfold appendOut. cbn. rewrite app_assoc. reflexivity. Qed.

Lemma GetHeaders_encodeLoop_eq (hashes : list (option common.Hash)) :
  forall e : Env,
  MsgGetHeaders.encodeLoop hashes e =
  match locatorBytes hashes with
  | (bs, ok) =>
    (appendOut e bs, if ok then Ok tt else Panic "nil pointer dereference")
  end.
Proof.
  induction hashes as [|[h|] hashes IH]; intros e;
    cbn [MsgGetHeaders.encodeLoop locatorBytes].
  - unfold ret. rewrite appendOut_nil. reflexivity.
  - unfold bind, serialization.WriteNBytes, WriteAll.
    fold (appendOut e h). rewrite IH.
    destruct (locatorBytes hashes) as [bs ok].
    rewrite appendOut_app. reflexivity.
  - unfold panic. rewrite appendOut_nil. reflexivity.
Qed.

Lemma GetHeaders_VVSEncode_eq (msg : MsgGetHeaders.t) (pver : Z)
    (enc : MessageEncoding) (e : Env) :
  MsgGetHeaders.VVSEncode msg pver enc e =
  encode_sem "MsgGetHeaders.VVSEncode" msg e.
Proof.
  unfold MsgGetHeaders.VVSEncode, encode_sem. cbn zeta.
  fold (tooManyOnWire (Z.of_nat (length (MsgGetHeaders.BlockLocatorHashes msg)))).
  destruct (_ >? _); [reflexivity|].
  unfold bind at 1, serialization.WriteUint32, WriteAll.
  unfold bind at 1. rewrite WriteVarInt_eq. cbn [rbuf wbuf made].
  unfold bind at 1. rewrite GetHeaders_encodeLoop_eq.
  destruct (locatorBytes _) as [bs [|]]; unfold appendOut; cbn [rbuf wbuf made].
  - unfold serialization.WriteNBytes, WriteAll. cbn [rbuf wbuf made].
    rewrite <- !app_assoc. reflexivity.
  - rewrite <- !app_assoc. reflexivity.
Qed.

Lemma GetBlocks_encodeLoop_sim (hashes : list (option common.Hash)) :
  forall e : Env,
  MsgGetBlocks.encodeLoop hashes e = MsgGetHeaders.encodeLoop hashes e.
Proof.
  (* the two loops are the same function, written twice *)
  intros e. reflexivity.
Qed.

Lemma GetBlocks_VVSEncode_eq (b : MsgGetBlocks.t) (pver : Z)
    (enc : MessageEncoding) (e : Env) :
  MsgGetBlocks.VVSEncode b pver enc e =
  encode_sem "MsgGetBlocks.VVSEncode" (asHeaders b) e.
Proof.
  unfold MsgGetBlocks.VVSEncode, encode_sem. cbn zeta.
  fold (tooManyOnWire (Z.of_nat (length (MsgGetBlocks.BlockLocatorHashes b)))).
  destruct b as [v l s]. cbn [asHeaders MsgGetBlocks.ProtocolVersion
    MsgGetBlocks.BlockLocatorHashes MsgGetBlocks.HashStop
    MsgGetHeaders.ProtocolVersion MsgGetHeaders.BlockLocatorHashes
    MsgGetHeaders.HashStop].
  destruct (_ >? _); [reflexivity|].
  unfold bind at 1, serialization.WriteUint32, WriteAll.
  unfold bind at 1. rewrite WriteVarInt_eq. cbn [rbuf wbuf made].
  unfold bind at 1. rewrite GetBlocks_encodeLoop_sim, GetHeaders_encodeLoop_eq.
  destruct (locatorBytes _) as [bs [|]]; unfold appendOut; cbn [rbuf wbuf made].
  - unfold serialization.WriteNBytes, WriteAll. cbn [rbuf wbuf made].
    rewrite <- !app_assoc. reflexivity.
  - rewrite <- !app_assoc. reflexivity.
Qed.

(** ** The mutator *)

Lemma GetHeaders_add_full (hash : option common.Hash) (msg : MsgGetHeaders.t) :
  MaxBlockLocatorsPerMsg <= Z.of_nat (length (MsgGetHeaders.BlockLocatorHashes msg)) ->
  MsgGetHeaders.AddBlockLocatorHash hash msg =
  (msg, Err (MessageError "MsgGetHeaders.AddBlockLocatorHash" tooManyToAdd)).
Proof.
  intros H. unfold MsgGetHeaders.AddBlockLocatorHash, bind, get.
  destruct (_ >? _) eqn:Hgt; [reflexivity|].
  rewrite Z.gtb_ltb in Hgt. apply Z.ltb_ge in Hgt. lia.
Qed.

Lemma GetHeaders_add_room (hash : option common.Hash) (msg : MsgGetHeaders.t) :
  Z.of_nat (length (MsgGetHeaders.BlockLocatorHashes msg)) < MaxBlockLocatorsPerMsg ->
  MsgGetHeaders.AddBlockLocatorHash hash msg =
  (MsgGetHeaders.setBlockLocatorHashes
     (MsgGetHeaders.BlockLocatorHashes msg ++ [hash]) msg, Ok tt).
Proof.
  intros H. unfold MsgGetHeaders.AddBlockLocatorHash, bind, get.
  destruct (_ >? _) eqn:Hgt; [apply Z.gtb_lt in Hgt; lia | reflexivity].
Qed.

Lemma GetBlocks_add_full (hash : option common.Hash) (msg : MsgGetBlocks.t) :
  MaxBlockLocatorsPerMsg <= Z.of_nat (length (MsgGetBlocks.BlockLocatorHashes msg)) ->
  MsgGetBlocks.AddBlockLocatorHash hash msg =
  (msg, Err (MessageError "MsgGetBlocks.AddBlockLocatorHash" tooManyToAdd)).
Proof.
  intros H. rewrite GetBlocks_AddBlockLocatorHash_sim, GetHeaders_add_full.
  - rewrite asBlocks_asHeaders. reflexivity.
  - destruct msg; exact H.
Qed.

Lemma GetBlocks_add_room (hash : option common.Hash) (msg : MsgGetBlocks.t) :
  Z.of_nat (length (MsgGetBlocks.BlockLocatorHashes msg)) < MaxBlockLocatorsPerMsg ->
  MsgGetBlocks.AddBlockLocatorHash hash msg =
  (MsgGetBlocks.setBlockLocatorHashes
     (MsgGetBlocks.BlockLocatorHashes msg ++ [hash]) msg, Ok tt).
Proof.
  intros H. rewrite GetBlocks_AddBlockLocatorHash_sim, GetHeaders_add_room.
  - destruct msg; reflexivity.
  - destruct msg; exact H.
Qed.

Section CallEach.
Context {T : Type} (add : option common.Hash -> M T unit).
Context (locators : T -> list (option common.Hash)).
Context (setLocators : list (option common.Hash) -> T -> T).
Context (refusal : error).
Hypothesis locators_set : forall l msg, locators (setLocators l msg) = l.
Hypothesis set_set : forall l l' msg,
  setLocators l (setLocators l' msg) = setLocators l msg.
Hypothesis add_full : forall hash msg,
  MaxBlockLocatorsPerMsg <= Z.of_nat (length (locators msg)) ->
  add hash msg = (msg, Err refusal).
Hypothesis add_room : forall hash msg,
  Z.of_nat (length (locators msg)) < MaxBlockLocatorsPerMsg ->
  add hash msg = (setLocators (locators msg ++ [hash]) msg, Ok tt).

Lemma callEach_room (hashes : list (option common.Hash)) :
  forall msg : T,
  Z.of_nat (length (locators msg)) + Z.of_nat (length hashes)
    <= MaxBlockLocatorsPerMsg ->
  hashes <> [] ->
  callEach add hashes msg =
  (setLocators (locators msg ++ hashes) msg,
   replicate (length hashes) (Ok tt)).
Proof.
  induction hashes as [|h rest IH]; intros msg Hlen Hne; [congruence|].
  cbn [callEach length replicate]. cbn [length] in Hlen.
  rewrite add_room by lia.
  destruct rest as [|h' rest'] eqn:Er.
  - reflexivity.
  - rewrite <- Er in *. rewrite IH.
    + rewrite locators_set, set_set, <- app_assoc. reflexivity.
    + rewrite locators_set, length_app. simpl. lia.
    + rewrite Er. discriminate.
Qed.

Lemma callEach_one_too_many (hashes : list (option common.Hash)) (msg : T) :
  locators msg = [] ->
  Z.of_nat (length hashes) = MaxBlockLocatorsPerMsg + 1 ->
  callEach add hashes msg =
  (setLocators (take 500 hashes) msg,
   replicate 500 (Ok tt) ++ [Err refusal]).
Proof.
  intros Hempty Hlen.
  assert (Hn : length hashes = 501%nat) by (unfold MaxBlockLocatorsPerMsg in Hlen; lia).
  destruct (take 500 hashes) as [|h0 front0] eqn:Hfront.
  { apply (f_equal length) in Hfront. rewrite length_take in Hfront.
    cbn [length] in Hfront. lia. }
  rewrite <- Hfront. rewrite <- (take_drop 500 hashes) at 1.
  assert (Hf : length (take 500 hashes) = 500%nat) by (rewrite length_take; lia).
  destruct (drop 500 hashes) as [|last [|x xs]] eqn:Hd;
    apply (f_equal length) in Hd; rewrite length_drop in Hd;
    cbn [length] in Hd; try lia.
  clear Hd. generalize dependent (take 500 hashes). intros front Hfront Hf.
  assert (Hgo : forall pre msg0,
    callEach add (pre ++ [last]) msg0 =
    match callEach add pre msg0 with
    | (m1, rs) => match add last m1 with (m2, r) => (m2, rs ++ [r]) end
    end).
  { induction pre as [|p pre IHp]; intros msg0; cbn [callEach app].
    - destruct (add last msg0); reflexivity.
    - destruct (add p msg0) as [m1 r1]. rewrite IHp.
      destruct (callEach add pre m1) as [m2 rs].
      destruct (add last m2); reflexivity. }
  rewrite Hgo, callEach_room.
  - rewrite Hempty, Hf. cbn [app]. rewrite add_full; [reflexivity|].
    rewrite locators_set, Hf. unfold MaxBlockLocatorsPerMsg. lia.
  - rewrite Hempty, Hf. unfold MaxBlockLocatorsPerMsg. cbn [length]. lia.
  - rewrite Hfront. discriminate.
Qed.
End CallEach.

(** C3: the mutator refuses a locator when the message already holds
    [MaxBlockLocatorsPerMsg] (500) of them, with the protocol-violation
    error and without touching the sequence; with fewer it succeeds and
    appends exactly the given hash.  So 501 calls on an empty request
    succeed 500 times, fail on the last call and leave the first 500 hashes
    in the sequence.  The same holds for both messages. *)
Theorem AddBlockLocatorHash_bound :
  (forall hash msg,
     Z.of_nat (length (MsgGetHeaders.BlockLocatorHashes msg)) = MaxBlockLocatorsPerMsg ->
     exists e, MsgGetHeaders.AddBlockLocatorHash hash msg = (msg, Err e) /\
               ProtocolViolation e) /\
  (forall hash msg,
     Z.of_nat (length (MsgGetHeaders.BlockLocatorHashes msg)) < MaxBlockLocatorsPerMsg ->
     MsgGetHeaders.AddBlockLocatorHash hash msg =
     (MsgGetHeaders.setBlockLocatorHashes
        (MsgGetHeaders.BlockLocatorHashes msg ++ [hash]) msg, Ok tt)) /\
  (forall hashes,
     Z.of_nat (length hashes) = MaxBlockLocatorsPerMsg + 1 ->
     exists msg e,
       callEach MsgGetHeaders.AddBlockLocatorHash hashes
                MsgGetHeaders.NewMsgGetHeaders =
       (msg, replicate 500 (Ok tt) ++ [Err e]) /\
       ProtocolViolation e /\
       MsgGetHeaders.BlockLocatorHashes msg = take 500 hashes /\
       Z.of_nat (length (MsgGetHeaders.BlockLocatorHashes msg)) =
       MaxBlockLocatorsPerMsg) /\
  (forall hash msg,
     Z.of_nat (length (MsgGetBlocks.BlockLocatorHashes msg)) = MaxBlockLocatorsPerMsg ->
     exists e, MsgGetBlocks.AddBlockLocatorHash hash msg = (msg, Err e) /\
               ProtocolViolation e) /\
  (forall hash msg,
     Z.of_nat (length (MsgGetBlocks.BlockLocatorHashes msg)) < MaxBlockLocatorsPerMsg ->
     MsgGetBlocks.AddBlockLocatorHash hash msg =
     (MsgGetBlocks.setBlockLocatorHashes
        (MsgGetBlocks.BlockLocatorHashes msg ++ [hash]) msg, Ok tt)) /\
  (forall pv stop hashes,
     Z.of_nat (length hashes) = MaxBlockLocatorsPerMsg + 1 ->
     exists msg e,
       callEach MsgGetBlocks.AddBlockLocatorHash hashes
                (MsgGetBlocks.mk pv [] stop) =
       (msg, replicate 500 (Ok tt) ++ [Err e]) /\
       ProtocolViolation e /\
       MsgGetBlocks.BlockLocatorHashes msg = take 500 hashes /\
       Z.of_nat (length (MsgGetBlocks.BlockLocatorHashes msg)) =
       MaxBlockLocatorsPerMsg).
Proof.
  split; [|split; [|split; [|split; [|split]]]].
  - intros hash msg H. eexists. split; [apply GetHeaders_add_full; lia | exact I].
  - apply GetHeaders_add_room.
  - intros hashes H. do 2 eexists. split.
    + apply (callEach_one_too_many MsgGetHeaders.AddBlockLocatorHash
               MsgGetHeaders.BlockLocatorHashes
               MsgGetHeaders.setBlockLocatorHashes); try reflexivity.
      * apply GetHeaders_add_full.
      * apply GetHeaders_add_room.
      * exact H.
    + split; [exact I|]. cbn. split; [reflexivity|].
      rewrite length_take. unfold MaxBlockLocatorsPerMsg in *. lia.
  - intros hash msg H. eexists. split; [apply GetBlocks_add_full; lia | exact I].
  - apply GetBlocks_add_room.
  - intros pv stop hashes H. do 2 eexists. split.
    + apply (callEach_one_too_many MsgGetBlocks.AddBlockLocatorHash
               MsgGetBlocks.BlockLocatorHashes
               MsgGetBlocks.setBlockLocatorHashes); try reflexivity.
      * apply GetBlocks_add_full.
      * apply GetBlocks_add_room.
      * exact H.
    + split; [exact I|]. cbn. split; [reflexivity|].
      rewrite length_take. unfold MaxBlockLocatorsPerMsg in *. lia.
Qed.

Lemma AddBlockLocatorHash_bound_witness :
  (exists e,
     MsgGetHeaders.AddBlockLocatorHash None
       (MsgGetHeaders.mk 0 (replicate 500 None) common.zeroHash) =
     (MsgGetHeaders.mk 0 (replicate 500 None) common.zeroHash, Err e) /\
     ProtocolViolation e) /\
  MsgGetHeaders.AddBlockLocatorHash (Some common.zeroHash)
    MsgGetHeaders.NewMsgGetHeaders =
  (MsgGetHeaders.mk 0 [Some common.zeroHash] common.zeroHash, Ok tt) /\
  (exists msg e,
     callEach MsgGetHeaders.AddBlockLocatorHash
       (replicate 501 (Some common.zeroHash)) MsgGetHeaders.NewMsgGetHeaders =
     (msg, replicate 500 (Ok tt) ++ [Err e]) /\
     ProtocolViolation e /\
     MsgGetHeaders.BlockLocatorHashes msg =
     take 500 (replicate 501 (Some common.zeroHash)) /\
     Z.of_nat (length (MsgGetHeaders.BlockLocatorHashes msg)) =
     MaxBlockLocatorsPerMsg).
Proof.
  destruct AddBlockLocatorHash_bound as (H1 & H2 & H3 & _).
  split; [apply H1; reflexivity|].
  split; [apply H2; reflexivity|].
  apply H3; reflexivity.
Defined.

(** ** Encoding, and decoding what was encoded *)

Lemma no_nil_hashesOf (l : list (option common.Hash)) :
  forallb (fun p : option common.Hash => bool_decide (is_Some p)) l = true ->
  Some <$> hashesOf l = l /\ locatorBytes l = (concat (hashesOf l), true).
Proof.
  induction l as [|[h|] l IH]; cbn [forallb]; intros H.
  - split; reflexivity.
  - apply andb_prop in H as [_ H]. destruct (IH H) as [IH1 IH2].
    cbn [locatorBytes]. rewrite IH2. unfold hashesOf in *. cbn.
    rewrite IH1. split; reflexivity.
  - apply andb_prop in H as [H _]. apply bool_decide_eq_true in H.
    destruct H as [x [=]].
Qed.

Lemma locatorBytes_ok (l : list (option common.Hash)) (bs : list byte) :
  locatorBytes l = (bs, true) ->
  forallb (fun p : option common.Hash => bool_decide (is_Some p)) l = true.
Proof.
  revert bs. induction l as [|[h|] l IH]; intros bs; cbn [locatorBytes forallb].
  - reflexivity.
  - destruct (locatorBytes l) as [bs' ok] eqn:E. intros [= <- ->].
    rewrite (IH bs' eq_refl). reflexivity.
  - intros [=].
Qed.

Lemma wf_hashesOf (l : list (option common.Hash)) :
  forallb wf_locator l = true ->
  Forall (fun h => length h = common.HashLength) (hashesOf l).
Proof.
  induction l as [|[h|] l IH]; cbn [forallb]; intros H; unfold hashesOf; cbn.
  - constructor.
  - apply andb_prop in H as [Hh H]. constructor; [|apply IH, H].
    apply bool_decide_eq_true in Hh. exact Hh.
  - apply andb_prop in H as [_ H]. apply IH, H.
Qed.

Lemma length_hashesOf_no_nil (l : list (option common.Hash)) :
  forallb (fun p : option common.Hash => bool_decide (is_Some p)) l = true ->
  length (hashesOf l) = length l.
Proof.
  intros H. destruct (no_nil_hashesOf l H) as [H1 _].
  rewrite <- H1 at 2. rewrite length_fmap. reflexivity.
Qed.

Lemma length_concat_hashes (hs : list common.Hash) :
  Forall (fun h => length h = common.HashLength) hs ->
  length (concat hs) = (common.HashLength * length hs)%nat.
Proof.
  induction 1 as [|h hs Hh _ IH]; cbn [concat length]; [lia|].
  rewrite length_app, Hh, IH. lia.
Qed.

Lemma readHashes_concat (hs : list common.Hash) (rest : list byte) :
  Forall (fun h => length h = common.HashLength) hs ->
  readHashes (length hs) (concat hs ++ rest) = (hs, rest, None).
Proof.
  induction 1 as [|h hs Hh _ IH]; cbn [concat length readHashes].
  - reflexivity.
  - rewrite decide_True by (rewrite !length_app; lia).
    rewrite <- app_assoc, <- Hh, drop_app_length, take_app_length, IH.
    reflexivity.
Qed.

Lemma wf_msg_inv (msg : MsgGetHeaders.t) :
  wf_msg msg = true ->
  0 <= MsgGetHeaders.ProtocolVersion msg < 2 ^ 32 /\
  forallb wf_locator (MsgGetHeaders.BlockLocatorHashes msg) = true /\
  length (MsgGetHeaders.HashStop msg) = common.HashLength.
Proof.
  unfold wf_msg. intros H.
  apply andb_prop in H as [H Hs]. apply andb_prop in H as [H Hl].
  apply andb_prop in H as [H0 H1].
  apply Z.leb_le in H0. apply Z.ltb_lt in H1.
  apply bool_decide_eq_true in Hs. auto.
Qed.

(** Encoding a message without nil locators and within the bound writes
    its payload. *)
Lemma encode_sem_payload (who : string) (msg : MsgGetHeaders.t) (e : Env) :
  no_nil msg = true ->
  within_bound (MsgGetHeaders.BlockLocatorHashes msg) ->
  encode_sem who msg e = (appendOut e (payload msg), Ok tt).
Proof.
  intros Hnn [_ Hb]. unfold encode_sem. cbn zeta.
  destruct (_ >? _) eqn:Hgt; [apply Z.gtb_lt in Hgt; lia|].
  destruct (no_nil_hashesOf _ Hnn) as [_ ->].
  unfold payload. rewrite <- ?app_assoc. reflexivity.
Qed.

(** A successful encoding wrote the payload of a message without nil
    locators and within the bound. *)
Lemma encode_sem_ok_inv (who : string) (msg : MsgGetHeaders.t) (e e' : Env) :
  encode_sem who msg e = (e', Ok tt) ->
  no_nil msg = true /\ within_bound (MsgGetHeaders.BlockLocatorHashes msg) /\
  e' = appendOut e (payload msg).
Proof.
  unfold encode_sem. cbn zeta.
  destruct (_ >? _) eqn:Hgt; [intros [=]|].
  rewrite Z.gtb_ltb in Hgt. apply Z.ltb_ge in Hgt.
  destruct (locatorBytes _) as [bs [|]] eqn:El; intros [= <-].
  pose proof (locatorBytes_ok _ _ El) as Hnn.
  split; [exact Hnn|]. split; [split; [lia | exact Hgt]|].
  destruct (no_nil_hashesOf _ Hnn) as [_ Hl]. rewrite El in Hl.
  injection Hl as ->. unfold payload. rewrite <- ?app_assoc. reflexivity.
Qed.

Lemma length_payload (msg : MsgGetHeaders.t) :
  wf_msg msg = true -> no_nil msg = true ->
  Z.of_nat (length (payload msg)) =
  4 + Z.of_nat (length (varint_bytes
        (Z.of_nat (length (MsgGetHeaders.BlockLocatorHashes msg))))) +
  Z.of_nat (length (MsgGetHeaders.BlockLocatorHashes msg)) * Z.of_nat common.HashLength +
  Z.of_nat common.HashLength.
Proof.
  intros Hwf Hnn. apply wf_msg_inv in Hwf as (_ & Hl & Hs).
  unfold payload. rewrite !length_app, length_le_bytes, Hs.
  rewrite length_concat_hashes by (apply wf_hashesOf, Hl).
  rewrite length_hashesOf_no_nil by exact Hnn. lia.
Qed.

(** Decoding a payload, into any receiver, rebuilds the message. *)
Lemma decode_sem_payload (who : string) (pver : Z) (msg m0 : MsgGetHeaders.t)
    (rest w : list byte) (m : list Z) :
  wf_msg msg = true -> no_nil msg = true ->
  within_bound (MsgGetHeaders.BlockLocatorHashes msg) ->
  let count := Z.of_nat (length (MsgGetHeaders.BlockLocatorHashes msg)) in
  decode_sem who pver (m0, mkEnv (payload msg ++ rest) w m) =
  ((msg, mkEnv rest w (count :: count :: m)), Ok tt).
Proof.
  intros Hwf Hnn [_ Hb] count.
  apply wf_msg_inv in Hwf as (Hv & Hl & Hs).
  unfold decode_sem, payload. cbn [fst snd]. fold count.
  unfold serialization.ReadUint32, bind.
  rewrite <- (length_le_bytes 4 (MsgGetHeaders.ProtocolVersion msg)) at 1.
  rewrite <- !app_assoc, ReadFull_app. unfold ret.
  rewrite le_value_le_bytes by (change (256 ^ Z.of_nat 4) with (2 ^ 32); exact Hv).
  rewrite ReadVarInt_varint_bytes
    by (unfold count, MaxBlockLocatorsPerMsg in *; lia).
  destruct (count >? MaxBlockLocatorsPerMsg) eqn:Hgt;
    [apply Z.gtb_lt in Hgt; unfold count in Hgt; lia|].
  cbn [rbuf wbuf made].
  replace (Z.to_nat count)
    with (length (hashesOf (MsgGetHeaders.BlockLocatorHashes msg)))
    by (rewrite length_hashesOf_no_nil by exact Hnn; unfold count; lia).
  rewrite readHashes_concat by (apply wf_hashesOf, Hl).
  rewrite <- Hs, ReadFull_app.
  destruct (no_nil_hashesOf _ Hnn) as [-> _].
  destruct msg; reflexivity.
Qed.

(** C1: round trip.  A request with at most [MaxBlockLocatorsPerMsg] (500)
    locator hashes (a [uint32] version, 32-byte hashes, no nil locator)
    encodes successfully, and decoding the bytes written, into any
    receiver, succeeds, consumes them all and leaves the receiver equal to
    the request: same ProtocolVersion, same locator hashes in the same
    order, same HashStop. *)
Theorem VVSDecode_VVSEncode_round_trip
    (r m0 : MsgGetHeaders.t) (pver pver' : Z) (enc enc' : MessageEncoding) :
  wf_msg r = true ->
  no_nil r = true ->
  within_bound (MsgGetHeaders.BlockLocatorHashes r) ->
  exists bytes,
    MsgGetHeaders.VVSEncode r pver enc writing = (mkEnv [] bytes [], Ok tt) /\
    exists e',
      MsgGetHeaders.VVSDecode pver' enc' (m0, reading bytes) = ((r, e'), Ok tt) /\
      rbuf e' = [].
Proof.
  intros Hwf Hnn Hb. exists (payload r). split.
  - rewrite GetHeaders_VVSEncode_eq, encode_sem_payload by assumption.
    reflexivity.
  - eexists. rewrite GetHeaders_VVSDecode_eq. unfold reading.
    rewrite <- (app_nil_r (payload r)).
    rewrite decode_sem_payload by assumption. split; reflexivity.
Qed.

Lemma VVSDecode_VVSEncode_round_trip_witness :
  exists bytes,
    MsgGetHeaders.VVSEncode twoLocators 0 0 writing =
    (mkEnv [] bytes [], Ok tt) /\
    exists e',
      MsgGetHeaders.VVSDecode 0 0 (MsgGetHeaders.NewMsgGetHeaders, reading bytes)
      = ((twoLocators, e'), Ok tt) /\
      rbuf e' = [].
Proof.
  apply (VVSDecode_VVSEncode_round_trip
           twoLocators MsgGetHeaders.NewMsgGetHeaders 0 0 0 0).
  - reflexivity.
  - reflexivity.
  - unfold within_bound, MaxBlockLocatorsPerMsg. simpl. lia.
Defined.

(** C7: the empty request.  With no locator hash and the all-zero stop
    hash the encoder succeeds and writes exactly 4 + 1 + 0 + 32 = 37
    bytes: the version in 4 bytes, the count as the single byte 0x00, and
    32 zero bytes; decoding them gives back the empty, zero-stop request. *)
Theorem VVSEncode_empty_request
    (v pver : Z) (enc : MessageEncoding) (m0 : MsgGetHeaders.t) :
  0 <= v < 2 ^ 32 ->
  let r := MsgGetHeaders.mk v [] common.zeroHash in
  let bytes := le_bytes 4 v ++ [x00] ++ replicate 32 x00 in
  MsgGetHeaders.VVSEncode r pver enc writing = (mkEnv [] bytes [], Ok tt) /\
  length bytes = 37%nat /\
  MsgGetHeaders.VVSDecode pver enc (m0, reading bytes) =
  ((r, mkEnv [] [] [0; 0]), Ok tt).
Proof.
  intros Hv r bytes.
  assert (Hwf : wf_msg r = true).
  { unfold wf_msg, r. cbn [MsgGetHeaders.ProtocolVersion
      MsgGetHeaders.BlockLocatorHashes MsgGetHeaders.HashStop forallb].
    rewrite (proj2 (Z.leb_le 0 v)), (proj2 (Z.ltb_lt v (2 ^ 32))) by lia.
    reflexivity. }
  assert (Hb : within_bound (MsgGetHeaders.BlockLocatorHashes r)).
  { unfold within_bound, MaxBlockLocatorsPerMsg, r. simpl. lia. }
  assert (Hp : payload r = bytes) by reflexivity.
  split; [|split].
  - rewrite GetHeaders_VVSEncode_eq, encode_sem_payload, Hp by (exact Hb || reflexivity).
    reflexivity.
  - unfold bytes. rewrite !length_app, length_le_bytes. reflexivity.
  - rewrite GetHeaders_VVSDecode_eq, <- Hp. unfold reading.
    rewrite <- (app_nil_r (payload r)).
    rewrite decode_sem_payload by (exact Hb || exact Hwf || reflexivity).
    reflexivity.
Qed.

Lemma VVSEncode_empty_request_witness :
  MsgGetHeaders.VVSEncode MsgGetHeaders.NewMsgGetHeaders 0 0 writing =
  (mkEnv [] (replicate 37 x00) [], Ok tt) /\
  length (replicate 37 x00) = 37%nat /\
  MsgGetHeaders.VVSDecode 0 0
    (MsgGetHeaders.mk 9 [None] [], reading (replicate 37 x00)) =
  ((MsgGetHeaders.NewMsgGetHeaders, mkEnv [] [] [0; 0]), Ok tt).
Proof.
  apply (VVSEncode_empty_request 0 0 0 (MsgGetHeaders.mk 9 [None] [])). lia.
Defined.

(** ** The payload bound *)




(** ** Decoding arbitrary input *)

Lemma readHashes_inv (n : nat) :
  forall (bs : list byte) hs rest err,
  readHashes n bs = (hs, rest, err) ->
  (length hs <= n)%nat /\
  Forall (fun h => length h = common.HashLength) hs /\
  exists tail,
    bs = concat hs ++ tail /\
    match err with
    | None => length hs = n /\ rest = tail
    | Some er =>
      StreamFailure er /\ rest = [] /\ (length hs < n)%nat /\
      (length tail < common.HashLength)%nat
    end.
Proof.
  induction n as [|n IH]; intros bs hs rest err; cbn [readHashes].
  - intros [= <- <- <-]. split; [reflexivity|]. split; [constructor|].
    exists bs. auto.
  - case_decide as Hrd.
    + destruct (readHashes n (drop common.HashLength bs)) as [[hs' rest'] err'] eqn:E.
      intros [= <- <- <-].
      apply IH in E as (Hlen & Hall & tail & Hsplit & Herr).
      assert (Ht : length (take common.HashLength bs) = common.HashLength)
        by (rewrite length_take; lia).
      split; [cbn [length]; lia|]. split; [constructor; assumption|].
      exists tail. split.
      { cbn [concat]. rewrite <- app_assoc, <- Hsplit, take_drop. reflexivity. }
      destruct err' as [er|]; cbn [length].
      * destruct Herr as (Hs & Hr & Hl & Hb). repeat split; try assumption; lia.
      * destruct Herr as (Hl & Hr). split; [lia | assumption].
    + intros [= <- <- <-]. split; [cbn [length]; lia|]. split; [constructor|].
      exists bs. split; [reflexivity|].
      split; [apply eofError_StreamFailure|]. repeat split; cbn [length]; lia.
Qed.

Lemma readHeader_inv (pver : Z) (e e2 : Env) (v count : Z) :
  readHeader pver e = (e2, Ok (v, count)) ->
  exists e1,
    serialization.ReadUint32 e = (e1, Ok v) /\
    serialization.ReadVarInt pver e1 = (e2, Ok count) /\
    0 <= count < 2 ^ 64 /\
    wbuf e2 = wbuf e /\ made e2 = made e /\
    exists header, rbuf e = header ++ rbuf e2.
Proof.
  unfold readHeader. unfold bind at 1.
  destruct (serialization.ReadUint32 e) as [e1 [v'|er|w]] eqn:Ev; try discriminate.
  unfold bind, ret.
  destruct (serialization.ReadVarInt pver e1) as [e2' [c'|er|w]] eqn:Ec;
    try discriminate.
  intros [= <- <- <-]. exists e1.
  apply ReadUint32_inv in Ev as (Hw1 & Hm1 & [(b1 & _ & _ & Hr1) | ([=] & _)]).
  pose proof Ec as Ec'.
  apply ReadVarInt_inv in Ec' as (Hw2 & Hm2 & [(c & b2 & [= <-] & Hc & Hr2) | (er & [=] & _)]).
  repeat split; try congruence; try lia.
  exists (b1 ++ b2). rewrite Hr1, Hr2, app_assoc. reflexivity.
Qed.

(** What [decode_sem] returns once the header was read. *)
Lemma decode_sem_header (who : string) (pver : Z) (msg : MsgGetHeaders.t)
    (e e2 : Env) (v count : Z) :
  readHeader pver e = (e2, Ok (v, count)) ->
  decode_sem who pver (msg, e) =
  let msg1 := MsgGetHeaders.setProtocolVersion v msg in
  if count >? MaxBlockLocatorsPerMsg then
    ((msg1, e2), Err (MessageError who (tooManyOnWire count)))
  else
    match readHashes (Z.to_nat count) (rbuf e2) with
    | (hs, rest, err) =>
      let msg2 := MsgGetHeaders.setBlockLocatorHashes (Some <$> hs) msg1 in
      let e3 := mkEnv rest (wbuf e2) (count :: count :: made e2) in
      match err with
      | Some er => ((msg2, e3), Err er)
      | None =>
        if decide (common.HashLength <= length rest)%nat then
          ((MsgGetHeaders.setHashStop (take common.HashLength rest) msg2,
            mkEnv (drop common.HashLength rest) (wbuf e2)
                  (count :: count :: made e2)), Ok tt)
        else ((msg2, mkEnv [] (wbuf e2) (count :: count :: made e2)),
              Err (eofError rest))
      end
    end.
Proof.
  intros H. apply readHeader_inv in H as (e1 & Hv & Hc & _).
  unfold decode_sem. cbn [fst snd]. rewrite Hv, Hc. cbn zeta.
  destruct (_ >? _); [reflexivity|].
  destruct (readHashes _ _) as [[hs rest] [er|]]; [reflexivity|].
  unfold ReadFull. cbn [rbuf wbuf made]. case_decide; reflexivity.
Qed.

(** What [decode_sem] returns when the header is cut short. *)
Lemma decode_sem_no_header (who : string) (pver : Z) (msg : MsgGetHeaders.t)
    (e e2 : Env) (r : res (Z * Z)) :
  readHeader pver e = (e2, r) ->
  (forall x, r <> Ok x) ->
  exists msg' er,
    decode_sem who pver (msg, e) = ((msg', e2), Err er) /\
    r = Err er /\ StreamFailure er /\
    MsgGetHeaders.BlockLocatorHashes msg' = MsgGetHeaders.BlockLocatorHashes msg /\
    MsgGetHeaders.HashStop msg' = MsgGetHeaders.HashStop msg /\
    made e2 = made e.
Proof.
  unfold readHeader, decode_sem. cbn [fst snd]. unfold bind at 1.
  destruct (serialization.ReadUint32 e) as [e1 [v|er|w]] eqn:Ev.
  - apply ReadUint32_inv in Ev as (_ & Hm1 & _).
    unfold bind, ret.
    destruct (serialization.ReadVarInt pver e1) as [e2' [c|er|w]] eqn:Ec;
      intros [= <- <-] Hr.
    + destruct (Hr _ eq_refl).
    + apply ReadVarInt_inv in Ec as (_ & Hm2 & [(c & b2 & [=] & _) | (er' & [= <-] & Hs & _)]).
      do 2 eexists. repeat split; try reflexivity; [exact Hs | congruence].
    + apply ReadVarInt_inv in Ec as (_ & _ & [(c & b2 & [=] & _) | (er' & [=] & _)]).
  - intros [= <- <-] _.
    apply ReadUint32_inv in Ev as (_ & Hm1 & [(b1 & [=] & _) | ([= ->] & _)]).
    do 2 eexists. repeat split; try reflexivity;
      [apply eofError_StreamFailure | exact Hm1].
  - apply ReadUint32_inv in Ev as (_ & _ & [(b1 & [=] & _) | ([=] & _)]).
Qed.

(** The outcomes of the decoder, by cases on the header. *)
Lemma decode_sem_outcome (who : string) (pver : Z) (msg : MsgGetHeaders.t) (e : Env) :
  (* the header is cut short *)
  (exists e2 er msg',
     decode_sem who pver (msg, e) = ((msg', e2), Err er) /\
     (forall e0 x, readHeader pver e <> (e0, Ok x)) /\
     snd (readHeader pver e) = Err er /\
     StreamFailure er /\ made e2 = made e /\
     MsgGetHeaders.BlockLocatorHashes msg' = MsgGetHeaders.BlockLocatorHashes msg) \/
  (* the declared count is above the maximum *)
  (exists e2 v count,
     readHeader pver e = (e2, Ok (v, count)) /\
     MaxBlockLocatorsPerMsg < count /\
     decode_sem who pver (msg, e) =
     ((MsgGetHeaders.setProtocolVersion v msg, e2),
      Err (MessageError who (tooManyOnWire count)))) \/
  (* the input ends before the last locator hash or the stop hash *)
  (exists e2 v count hs e' er,
     readHeader pver e = (e2, Ok (v, count)) /\
     0 <= count <= MaxBlockLocatorsPerMsg /\
     Z.of_nat (length (rbuf e2)) < count * 32 + 32 /\
     decode_sem who pver (msg, e) =
     ((MsgGetHeaders.mk v (Some <$> hs) (MsgGetHeaders.HashStop msg), e'), Err er) /\
     StreamFailure er /\
     (length hs <= Z.to_nat count)%nat /\
     Forall (fun h => length h = common.HashLength) hs /\
     (exists tail, rbuf e2 = concat hs ++ tail) /\
     rbuf e' = [] /\ made e' = count :: count :: made e) \/
  (* success *)
  (exists e2 v count hs stop rest,
     readHeader pver e = (e2, Ok (v, count)) /\
     0 <= count <= MaxBlockLocatorsPerMsg /\
     rbuf e2 = concat hs ++ stop ++ rest /\
     length hs = Z.to_nat count /\
     Forall (fun h => length h = common.HashLength) hs /\
     length stop = common.HashLength /\
     decode_sem who pver (msg, e) =
     ((MsgGetHeaders.mk v (Some <$> hs) stop,
       mkEnv rest (wbuf e) (count :: count :: made e)), Ok tt)).
Proof.
  destruct (readHeader pver e) as [e2 [[v count]|er|w]] eqn:Eh.
  2,3: left; edestruct (decode_sem_no_header who pver msg e e2) as
         (msg' & er' & Hd & Hr & Hs & Hl & _ & Hm);
       [exact Eh | discriminate | ];
       exists e2, er', msg';
       (split; [exact Hd|]); (split; [intros e0 x; discriminate|]);
       (split; [exact Hr|]); auto.
  right. rewrite (decode_sem_header who pver msg e e2 v count Eh). cbn zeta.
  pose proof Eh as Eh'.
  apply readHeader_inv in Eh' as (e1 & _ & _ & Hc & Hw & Hm & _).
  destruct (count >? MaxBlockLocatorsPerMsg) eqn:Hgt.
  { left. apply Z.gtb_lt in Hgt. exists e2, v, count. auto. }
  right. rewrite Z.gtb_ltb in Hgt. apply Z.ltb_ge in Hgt.
  destruct (readHashes (Z.to_nat count) (rbuf e2)) as [[hs rest] err] eqn:Er.
  apply readHashes_inv in Er as (Hlen & Hall & tail & Hsplit & Herr).
  pose proof (length_concat_hashes hs Hall) as Hcat.
  destruct err as [er|].
  - left. destruct Herr as (Hs & -> & Hl & Ht).
    exists e2, v, count, hs. do 2 eexists.
    split; [reflexivity|]. split; [lia|]. split.
    { rewrite Hsplit, length_app, Hcat. unfold common.HashLength in *. lia. }
    split; [destruct msg; reflexivity|].
    split; [exact Hs|]. split; [lia|]. split; [exact Hall|].
    split; [exists tail; exact Hsplit|]. cbn. rewrite Hm. auto.
  - destruct Herr as (Hl & ->). case_decide as Hstop.
    + right. exists e2, v, count, hs, (take common.HashLength tail),
        (drop common.HashLength tail).
      split; [reflexivity|]. split; [lia|].
      split; [rewrite take_drop; exact Hsplit|].
      split; [exact Hl|]. split; [exact Hall|].
      split; [rewrite length_take; lia|].
      rewrite Hw, Hm. destruct msg; reflexivity.
    + left. exists e2, v, count, hs. do 2 eexists.
      split; [reflexivity|]. split; [lia|]. split.
      { rewrite Hsplit, length_app, Hcat. unfold common.HashLength in *. lia. }
      split; [destruct msg; reflexivity|].
      split; [apply eofError_StreamFailure|]. split; [lia|]. split; [exact Hall|].
      split; [exists tail; exact Hsplit|]. cbn. rewrite Hm. auto.
Qed.

Lemma GetBlocks_VVSDecode_eq' (pver : Z) (enc : MessageEncoding)
    (b : MsgGetBlocks.t) (e : Env) :
  MsgGetBlocks.VVSDecode pver enc (b, e) =
  inBlocks (decode_sem "MsgGetBlocks.VVSDecode" pver (asHeaders b, e)).
Proof.
  rewrite GetBlocks_VVSDecode_eq.
  destruct (readHeader pver e) as [e2 [[v count]|er|w]] eqn:Eh.
  - rewrite !(decode_sem_header _ pver _ e e2 v count Eh). cbn zeta.
    destruct (_ >? _); [reflexivity|].
    destruct (readHashes _ _) as [[hs rest] [er|]] eqn:Er.
    + apply readHashes_inv in Er as (_ & _ & tail & _ & Hs & _).
      unfold blocksRun, inBlocks. cbn. rewrite (blocksErr_stream _ Hs). reflexivity.
    + case_decide; unfold blocksRun, inBlocks; cbn; [reflexivity|].
      rewrite (blocksErr_stream _ (eofError_StreamFailure _)). reflexivity.
  - unfold decode_sem, readHeader in *. cbn [fst snd] in *. unfold bind in Eh.
    destruct (serialization.ReadUint32 e) as [e1 [v|er1|w1]] eqn:Ev.
    + destruct (serialization.ReadVarInt pver e1) as [e2' [c|er2|w2]] eqn:Ec;
        try discriminate.
      apply ReadVarInt_inv in Ec as (_ & _ & [(c & b2 & [=] & _) | (er' & [= <-] & Hs & _)]).
      unfold blocksRun, inBlocks. cbn. rewrite (blocksErr_stream _ Hs). reflexivity.
    + apply ReadUint32_inv in Ev as (_ & _ & [(b1 & [=] & _) | ([= ->] & _)]).
      unfold blocksRun, inBlocks. cbn.
      rewrite (blocksErr_stream _ (eofError_StreamFailure _)). reflexivity.
    + apply ReadUint32_inv in Ev as (_ & _ & [(b1 & [=] & _) | ([=] & _)]).
  - exfalso. unfold readHeader, bind in Eh.
    destruct (serialization.ReadUint32 e) as [e1 [v|er1|w1]] eqn:Ev.
    + destruct (serialization.ReadVarInt pver e1) as [e2' [c|er2|w2]] eqn:Ec;
        try discriminate.
      apply ReadVarInt_inv in Ec as (_ & _ & [(c & b2 & [=] & _) | (er' & [=] & _)]).
    + discriminate.
    + apply ReadUint32_inv in Ev as (_ & _ & [(b1 & [=] & _) | ([=] & _)]).
Qed.

(** ** The count check *)

(** C2: a declared count above [MaxBlockLocatorsPerMsg] (500) makes the
    decoder fail with the protocol-violation error of [VVSDecode] as soon
    as the count is read: the stream is left right after the count (no
    locator-hash byte was read), nothing was allocated, and the receiver's
    locators are untouched.  With a declared count of at most 500 the
    decoder does not report a protocol violation.  Both messages. *)
Theorem VVSDecode_count_check (pver : Z) (enc : MessageEncoding)
    (e e2 : Env) (v count : Z) :
  readHeader pver e = (e2, Ok (v, count)) ->
  (MaxBlockLocatorsPerMsg < count ->
   (forall msg,
      MsgGetHeaders.VVSDecode pver enc (msg, e) =
      ((MsgGetHeaders.setProtocolVersion v msg, e2),
       Err (MessageError "MsgGetHeaders.VVSDecode" (tooManyOnWire count)))) /\
   (forall msg,
      MsgGetBlocks.VVSDecode pver enc (msg, e) =
      ((MsgGetBlocks.setProtocolVersion v msg, e2),
       Err (MessageError "MsgGetBlocks.VVSDecode" (tooManyOnWire count)))) /\
   made e2 = made e) /\
  (count <= MaxBlockLocatorsPerMsg ->
   (forall msg s' er,
      MsgGetHeaders.VVSDecode pver enc (msg, e) = (s', Err er) ->
      ~ ProtocolViolation er) /\
   (forall msg s' er,
      MsgGetBlocks.VVSDecode pver enc (msg, e) = (s', Err er) ->
      ~ ProtocolViolation er)).
Proof.
  intros Eh. split.
  - intros Hgt.
    assert (Hc : (count >? MaxBlockLocatorsPerMsg) = true) by (apply Z.gtb_lt; exact Hgt).
    split; [|split].
    + intros msg.
      rewrite GetHeaders_VVSDecode_eq, (decode_sem_header _ _ _ _ _ _ _ Eh).
      cbn zeta. rewrite Hc. reflexivity.
    + intros msg.
      rewrite GetBlocks_VVSDecode_eq', (decode_sem_header _ _ _ _ _ _ _ Eh).
      cbn zeta. rewrite Hc. destruct msg; reflexivity.
    + apply readHeader_inv in Eh as (_ & _ & _ & _ & _ & Hm & _). exact Hm.
  - intros Hle.
    assert (Hgen : forall who msg s' er,
      decode_sem who pver (msg, e) = (s', Err er) -> ~ ProtocolViolation er).
    { intros who msg s' er Hd.
      destruct (decode_sem_outcome who pver msg e)
        as [(e2' & er' & msg' & Hd' & Hno & _) |
           [(e2' & v' & c' & Eh' & Hgt & _) |
           [(e2' & v' & c' & hs & e' & er' & _ & _ & _ & Hd' & Hs & _) |
            (e2' & v' & c' & hs & stop & rest & _ & _ & _ & _ & _ & _ & Hd')]]].
      - exfalso. exact (Hno _ _ Eh).
      - rewrite Eh in Eh'. injection Eh' as <- <- <-. lia.
      - rewrite Hd in Hd'. injection Hd' as _ <-.
        destruct er; simpl in *; tauto.
      - rewrite Hd in Hd'. discriminate. }
    split.
    + intros msg s' er Hd. rewrite GetHeaders_VVSDecode_eq in Hd.
      exact (Hgen _ _ _ _ Hd).
    + intros msg s' er Hd. rewrite GetBlocks_VVSDecode_eq' in Hd.
      destruct (decode_sem _ _ _) as [[m1 e1] r1] eqn:Hd'.
      unfold inBlocks in Hd. cbn [fst snd] in Hd. injection Hd as _ ->.
      exact (Hgen _ _ _ _ Hd').
Qed.

Lemma VVSDecode_count_check_witness :
  (MsgGetHeaders.VVSDecode 0 0 (MsgGetHeaders.NewMsgGetHeaders, reading hostileStream) =
   ((MsgGetHeaders.setProtocolVersion 70001 MsgGetHeaders.NewMsgGetHeaders,
     reading (replicate 5 x03)),
    Err (MessageError "MsgGetHeaders.VVSDecode" (tooManyOnWire 10000000)))) /\
  (MsgGetHeaders.VVSDecode 0 0 (MsgGetHeaders.NewMsgGetHeaders, reading cutStream) =
   ((MsgGetHeaders.mk 70001 [Some (replicate 32 x03)] common.zeroHash,
     mkEnv [] [] [2; 2]), Err ErrUnexpectedEOF)) /\
  ~ ProtocolViolation ErrUnexpectedEOF.
Proof.
  split; [|split; [reflexivity|]].
  - apply (VVSDecode_count_check 0 0 (reading hostileStream)
             (reading (replicate 5 x03)) 70001 10000000).
    + reflexivity.
    + unfold MaxBlockLocatorsPerMsg. lia.
  - apply (proj1 (proj2 (VVSDecode_count_check 0 0 (reading cutStream)
             (reading (replicate 32 x03 ++ replicate 5 x04)) 70001 2 eq_refl)
             ltac:(unfold MaxBlockLocatorsPerMsg; lia))
           MsgGetHeaders.NewMsgGetHeaders
           (MsgGetHeaders.mk 70001 [Some (replicate 32 x03)] common.zeroHash,
            mkEnv [] [] [2; 2])).
    reflexivity.
Defined.

(** The result of the loop of the decoder, started as [VVSDecode] starts
    it: it completes or stops on a stream failure. *)
Lemma GetHeaders_decodeLoop_result (count : Z) (msg : MsgGetHeaders.t) (e : Env)
    s' r :
  0 <= count <= MaxBlockLocatorsPerMsg ->
  MsgGetHeaders.decodeLoop (Z.to_nat count) 0
    (replicate (Z.to_nat count) common.zeroHash)
    (MsgGetHeaders.setBlockLocatorHashes [] msg, e) = (s', r) ->
  r = Ok tt \/ exists er, r = Err er /\ StreamFailure er.
Proof.
  intros Hc. rewrite GetHeaders_decodeLoop_eq;
    [ | lia | rewrite length_replicate; lia | simpl; lia ].
  destruct (readHashes _ _) as [[hs rest] [er|]] eqn:Er; intros [= <- <-].
  - right. exists er. split; [reflexivity|].
    apply readHashes_inv in Er as (_ & _ & tail & _ & Hs & _). exact Hs.
  - left. reflexivity.
Qed.

(** ** The in-loop bound check *)

(** C9: in the loop of the decoder, entered with a count already checked
    to be at most [MaxBlockLocatorsPerMsg] (500), the mutator never fails:
    the loop completes or stops on a stream failure, never on a protocol
    violation and never on a panic.  Accordingly [VVSDecode] never returns
    the error of [AddBlockLocatorHash].  Both messages. *)
Theorem VVSDecode_mutator_never_fails (pver : Z) (enc : MessageEncoding)
    (count : Z) :
  0 <= count <= MaxBlockLocatorsPerMsg ->
  (forall msg e s' r,
     MsgGetHeaders.decodeLoop (Z.to_nat count) 0
       (replicate (Z.to_nat count) common.zeroHash)
       (MsgGetHeaders.setBlockLocatorHashes [] msg, e) = (s', r) ->
     r = Ok tt \/ exists er, r = Err er /\ StreamFailure er) /\
  (forall msg e s' r,
     MsgGetBlocks.decodeLoop (Z.to_nat count) 0
       (replicate (Z.to_nat count) common.zeroHash)
       (MsgGetBlocks.setBlockLocatorHashes [] msg, e) = (s', r) ->
     r = Ok tt \/ exists er, r = Err er /\ StreamFailure er) /\
  (forall msg e s' r d,
     MsgGetHeaders.VVSDecode pver enc (msg, e) = (s', r) ->
     r <> Err (MessageError "MsgGetHeaders.AddBlockLocatorHash" d)) /\
  (forall msg e s' r d,
     MsgGetBlocks.VVSDecode pver enc (msg, e) = (s', r) ->
     r <> Err (MessageError "MsgGetBlocks.AddBlockLocatorHash" d)).
Proof.
  intros Hc.
  assert (Hgen : forall who msg e s' r d,
    decode_sem (who +:+ ".VVSDecode") pver (msg, e) = (s', r) ->
    r <> Err (MessageError (who +:+ ".AddBlockLocatorHash") d)).
  { intros who msg e s' r d Hd.
    destruct (decode_sem_outcome (who +:+ ".VVSDecode") pver msg e)
      as [(e2' & er' & msg' & Hd' & _ & _ & Hs & _) |
         [(e2' & v' & c' & _ & _ & Hd') |
         [(e2' & v' & c' & hs & e' & er' & _ & _ & _ & Hd' & Hs & _) |
          (e2' & v' & c' & hs & stop & rest & _ & _ & _ & _ & _ & _ & Hd')]]];
      rewrite Hd in Hd'; injection Hd' as _ ->; try discriminate.
    - intros [= ->]. exact Hs.
    - intros [= Hw _]. apply (inj (String.app who)) in Hw. discriminate.
    - intros [= ->]. exact Hs. }
  split; [|split; [|split]].
  - intros msg e s' r. apply GetHeaders_decodeLoop_result. exact Hc.
  - intros msg e s' r. rewrite GetBlocks_decodeLoop_sim.
    destruct (MsgGetHeaders.decodeLoop _ _ _ _) as [s1 r1] eqn:El.
    replace (asHeaders (MsgGetBlocks.setBlockLocatorHashes [] msg))
      with (MsgGetHeaders.setBlockLocatorHashes [] (asHeaders msg)) in El
      by (destruct msg; reflexivity).
    apply (GetHeaders_decodeLoop_result _ _ _ _ _ Hc) in El.
    unfold blocksRun. cbn [fst snd]. intros [= <- <-].
    destruct El as [-> | (er & -> & Hs)]; [left; reflexivity|].
    right. exists er. cbn. rewrite (blocksErr_stream _ Hs). auto.
  - intros msg e s' r d Hd. rewrite GetHeaders_VVSDecode_eq in Hd.
    exact (Hgen "MsgGetHeaders" _ _ _ _ d Hd).
  - intros msg e s' r d Hd. rewrite GetBlocks_VVSDecode_eq' in Hd.
    destruct (decode_sem _ _ _) as [[m1 e1] r1] eqn:Hd'.
    unfold inBlocks in Hd. cbn [fst snd] in Hd. injection Hd as _ ->.
    exact (Hgen "MsgGetBlocks" _ _ _ _ d Hd').
Qed.

Lemma VVSDecode_mutator_never_fails_witness :
  MsgGetHeaders.decodeLoop (Z.to_nat 2) 0
    (replicate (Z.to_nat 2) common.zeroHash)
    (MsgGetHeaders.setBlockLocatorHashes [] MsgGetHeaders.NewMsgGetHeaders,
     reading (replicate 40 x03)) =
  ((MsgGetHeaders.mk 0 [Some (replicate 32 x03)] common.zeroHash, reading []),
   Err ErrUnexpectedEOF) /\
  (@Err unit ErrUnexpectedEOF = Ok tt \/
   exists er, @Err unit ErrUnexpectedEOF = Err er /\ StreamFailure er).
Proof.
  split; [reflexivity|].
  apply (proj1 (VVSDecode_mutator_never_fails 0 0 2
                  ltac:(unfold MaxBlockLocatorsPerMsg; lia))
           MsgGetHeaders.NewMsgGetHeaders (reading (replicate 40 x03))
           (MsgGetHeaders.mk 0 [Some (replicate 32 x03)] common.zeroHash,
            reading [])).
  reflexivity.
Defined.

(** ** The receiver *)

(** The outcome of the decoder and what it leaves of the stream do not
    depend on the receiver; on success neither does the message decoded. *)
Lemma decode_sem_receiver (who : string) (pver : Z)
    (m1 m2 : MsgGetHeaders.t) (e : Env) :
  snd (decode_sem who pver (m1, e)) = snd (decode_sem who pver (m2, e)) /\
  snd (fst (decode_sem who pver (m1, e))) =
  snd (fst (decode_sem who pver (m2, e))) /\
  (snd (decode_sem who pver (m1, e)) = Ok tt ->
   fst (fst (decode_sem who pver (m1, e))) =
   fst (fst (decode_sem who pver (m2, e)))).
Proof.
  destruct (readHeader pver e) as [e2 r] eqn:Eh.
  destruct r as [[v count]|er|w].
  - rewrite !(decode_sem_header who pver _ e e2 v count Eh). cbn zeta.
    destruct (_ >? _); [cbn; repeat split; discriminate|].
    destruct (readHashes _ _) as [[hs rest] [er|]];
      [cbn; repeat split; discriminate|].
    case_decide; cbn; repeat split; discriminate.
  - destruct (decode_sem_no_header who pver m1 e e2 _ Eh ltac:(discriminate))
      as (m1' & er1 & -> & [= <-] & _).
    destruct (decode_sem_no_header who pver m2 e e2 _ Eh ltac:(discriminate))
      as (m2' & er2 & -> & [= <-] & _).
    cbn. repeat split. discriminate.
  - destruct (decode_sem_no_header who pver m1 e e2 _ Eh ltac:(discriminate))
      as (m1' & er1 & _ & [=] & _).
Qed.

(** C10: a successful decode does not depend on what the receiver held:
    from any two receivers and the same input, if one decode succeeds so
    does the other, with the same message (ProtocolVersion,
    BlockLocatorHashes and HashStop all come from the stream) and the same
    stream left.  Both messages. *)
Theorem VVSDecode_receiver_insensitive (pver : Z) (enc : MessageEncoding)
    (e : Env) :
  (forall m1 m2 m' e',
     MsgGetHeaders.VVSDecode pver enc (m1, e) = ((m', e'), Ok tt) ->
     MsgGetHeaders.VVSDecode pver enc (m2, e) = ((m', e'), Ok tt)) /\
  (forall m1 m2 m' e',
     MsgGetBlocks.VVSDecode pver enc (m1, e) = ((m', e'), Ok tt) ->
     MsgGetBlocks.VVSDecode pver enc (m2, e) = ((m', e'), Ok tt)).
Proof.
  split.
  - intros m1 m2 m' e'. rewrite !GetHeaders_VVSDecode_eq. intros H1.
    destruct (decode_sem_receiver "MsgGetHeaders.VVSDecode" pver m1 m2 e)
      as (Hr & He & Hm).
    rewrite H1 in Hr, He, Hm. cbn [fst snd] in *.
    destruct (decode_sem _ pver (m2, e)) as [[m2' e2'] r2].
    cbn [fst snd] in *. rewrite <- Hr, <- He, <- (Hm eq_refl). reflexivity.
  - intros m1 m2 m' e'. rewrite !GetBlocks_VVSDecode_eq'. intros H1.
    destruct (decode_sem_receiver "MsgGetBlocks.VVSDecode" pver
                (asHeaders m1) (asHeaders m2) e) as (Hr & He & Hm).
    destruct (decode_sem _ pver (asHeaders m1, e)) as [[m1' e1'] r1].
    destruct (decode_sem _ pver (asHeaders m2, e)) as [[m2' e2'] r2].
    unfold inBlocks in *. cbn [fst snd] in *.
    injection H1 as <- <- ->. rewrite <- Hr, <- He, <- (Hm eq_refl). reflexivity.
Qed.

Lemma VVSDecode_receiver_insensitive_witness :
  MsgGetHeaders.VVSDecode 0 0
    (MsgGetHeaders.mk 9 [None; None] [], reading (payload twoLocators)) =
  ((twoLocators, mkEnv [] [] [2; 2]), Ok tt).
Proof.
  apply (proj1 (VVSDecode_receiver_insensitive 0 0 (reading (payload twoLocators)))
           MsgGetHeaders.NewMsgGetHeaders).
  reflexivity.
Defined.

(** ** The invariant *)

(** C6: the locator sequence holds between 0 and [MaxBlockLocatorsPerMsg]
    (500) hashes after every operation: in a new message; after the
    mutator, whether it succeeds or fails, on a message within the bound;
    after a successful decode, whatever the receiver held; and after a
    failed decode into a receiver within the bound.  Both messages. *)
Theorem locator_count_invariant :
  within_bound (MsgGetHeaders.BlockLocatorHashes MsgGetHeaders.NewMsgGetHeaders) /\
  (forall pv stop msg,
     MsgGetBlocks.NewMsgGetBlocks pv stop = Ok msg ->
     within_bound (MsgGetBlocks.BlockLocatorHashes msg)) /\
  (forall hash msg msg' r,
     within_bound (MsgGetHeaders.BlockLocatorHashes msg) ->
     MsgGetHeaders.AddBlockLocatorHash hash msg = (msg', r) ->
     within_bound (MsgGetHeaders.BlockLocatorHashes msg')) /\
  (forall hash msg msg' r,
     within_bound (MsgGetBlocks.BlockLocatorHashes msg) ->
     MsgGetBlocks.AddBlockLocatorHash hash msg = (msg', r) ->
     within_bound (MsgGetBlocks.BlockLocatorHashes msg')) /\
  (forall pver enc msg e msg' e' r,
     r = Ok tt \/ within_bound (MsgGetHeaders.BlockLocatorHashes msg) ->
     MsgGetHeaders.VVSDecode pver enc (msg, e) = ((msg', e'), r) ->
     within_bound (MsgGetHeaders.BlockLocatorHashes msg')) /\
  (forall pver enc msg e msg' e' r,
     r = Ok tt \/ within_bound (MsgGetBlocks.BlockLocatorHashes msg) ->
     MsgGetBlocks.VVSDecode pver enc (msg, e) = ((msg', e'), r) ->
     within_bound (MsgGetBlocks.BlockLocatorHashes msg')).
Proof.
  assert (Hadd : forall hash msg msg' r,
     within_bound (MsgGetHeaders.BlockLocatorHashes msg) ->
     MsgGetHeaders.AddBlockLocatorHash hash msg = (msg', r) ->
     within_bound (MsgGetHeaders.BlockLocatorHashes msg')).
  { intros hash msg msg' r Hb.
    unfold MsgGetHeaders.AddBlockLocatorHash, bind, get, modify, fail.
    destruct (_ >? _) eqn:Hgt; intros [= <- <-]; [exact Hb|].
    rewrite Z.gtb_ltb in Hgt. apply Z.ltb_ge in Hgt.
    unfold within_bound in *. cbn. rewrite length_app. cbn [length]. lia. }
  assert (Hdec : forall who pver msg e msg' e' r,
     r = Ok tt \/ within_bound (MsgGetHeaders.BlockLocatorHashes msg) ->
     decode_sem who pver (msg, e) = ((msg', e'), r) ->
     within_bound (MsgGetHeaders.BlockLocatorHashes msg')).
  { intros who pver msg e msg' e' r Hor Hd.
    destruct (decode_sem_outcome who pver msg e)
      as [(e2' & er' & m1 & Hd' & _ & _ & _ & _ & Hl) |
         [(e2' & v' & c' & _ & _ & Hd') |
         [(e2' & v' & c' & hs & e1 & er' & _ & Hc & _ & Hd' & _ & Hlen & _) |
          (e2' & v' & c' & hs & stop & rest & _ & Hc & _ & Hlen & _ & _ & Hd')]]];
      rewrite Hd in Hd'; injection Hd' as -> _ ->.
    - destruct Hor as [[=]|Hb]. rewrite Hl. exact Hb.
    - destruct Hor as [[=]|Hb]. exact Hb.
    - unfold within_bound. cbn. rewrite length_fmap. lia.
    - unfold within_bound. cbn. rewrite length_fmap. lia. }
  split; [unfold within_bound, MaxBlockLocatorsPerMsg; simpl; lia|].
  split.
  { intros pv [stop|] msg; [intros [= <-]|discriminate].
    unfold within_bound, MaxBlockLocatorsPerMsg; simpl; lia. }
  split; [exact Hadd|].
  split.
  { intros hash msg msg' r Hb. rewrite GetBlocks_AddBlockLocatorHash_sim.
    destruct (MsgGetHeaders.AddBlockLocatorHash hash (asHeaders msg))
      as [h' r'] eqn:Ea.
    intros [= <- <-].
    apply (Hadd hash (asHeaders msg) h' r'); [destruct msg; exact Hb | exact Ea]. }
  split.
  { intros pver enc msg e msg' e' r Hor. rewrite GetHeaders_VVSDecode_eq.
    apply Hdec, Hor. }
  intros pver enc msg e msg' e' r Hor. rewrite GetBlocks_VVSDecode_eq'.
  destruct (decode_sem _ pver (asHeaders msg, e)) as [[m1 e1] r1] eqn:Hd.
  unfold inBlocks. cbn [fst snd]. intros [= <- <- <-].
  apply (Hdec "MsgGetBlocks.VVSDecode" pver (asHeaders msg) e m1 e1 r1);
    [|exact Hd].
  destruct msg; exact Hor.
Qed.

Lemma locator_count_invariant_witness :
  within_bound (MsgGetHeaders.BlockLocatorHashes
    (MsgGetHeaders.mk 0 [Some common.zeroHash] common.zeroHash)) /\
  within_bound (MsgGetHeaders.BlockLocatorHashes twoLocators).
Proof.
  destruct locator_count_invariant as (H0 & _ & Hadd & _ & Hdec & _).
  split.
  - apply (Hadd (Some common.zeroHash) MsgGetHeaders.NewMsgGetHeaders _ (Ok tt));
      [exact H0 | reflexivity].
  - apply (Hdec 0 0 (MsgGetHeaders.mk 9 (replicate 600 None) [])
             (reading (payload twoLocators)) _ (mkEnv [] [] [2; 2]) (Ok tt));
      [left; reflexivity | reflexivity].
Defined.

(** ** Truncated input *)




(** ** One wire format *)

(** C8: one wire layout for both messages.  For a getblocks and a
    getheaders request with equal ProtocolVersion, equal locator hashes
    and equal HashStop the two encoders write the same bytes and end the
    same way.  On any input, from any receivers, the two decoders consume
    the same bytes and end the same way (both succeed, or both fail with
    the same error up to the function named in it); when they succeed the
    two messages decoded are field-wise equal.  The command tags differ. *)
Theorem GetBlocks_GetHeaders_same_wire (pver : Z) (enc : MessageEncoding)
    (b : MsgGetBlocks.t) (h : MsgGetHeaders.t) (e : Env) :
  MsgGetBlocks.ProtocolVersion b = MsgGetHeaders.ProtocolVersion h ->
  MsgGetBlocks.BlockLocatorHashes b = MsgGetHeaders.BlockLocatorHashes h ->
  MsgGetBlocks.HashStop b = MsgGetHeaders.HashStop h ->
  (exists e' rb rh,
     MsgGetBlocks.VVSEncode b pver enc e = (e', rb) /\
     MsgGetHeaders.VVSEncode h pver enc e = (e', rh) /\
     sameOutcome rb rh) /\
  (forall b0 h0, exists b' h' e' rb rh,
     MsgGetBlocks.VVSDecode pver enc (b0, e) = ((b', e'), rb) /\
     MsgGetHeaders.VVSDecode pver enc (h0, e) = ((h', e'), rh) /\
     sameOutcome rb rh /\
     (rh = Ok tt ->
      MsgGetBlocks.ProtocolVersion b' = MsgGetHeaders.ProtocolVersion h' /\
      MsgGetBlocks.BlockLocatorHashes b' = MsgGetHeaders.BlockLocatorHashes h' /\
      MsgGetBlocks.HashStop b' = MsgGetHeaders.HashStop h')) /\
  MsgGetBlocks.Command <> MsgGetHeaders.Command.
Proof.
  intros Hv Hl Hs.
  assert (Hbh : asHeaders b = h).
  { destruct b, h; cbn in *; subst; reflexivity. }
  split; [|split; [|discriminate]].
  - rewrite GetBlocks_VVSEncode_eq, GetHeaders_VVSEncode_eq, Hbh.
    unfold encode_sem. cbn zeta.
    destruct (_ >? _); [do 3 eexists; repeat split; reflexivity|].
    destruct (locatorBytes _) as [bs [|]]; do 3 eexists; repeat split; reflexivity.
  - intros b0 h0.
    rewrite GetBlocks_VVSDecode_sim.
    destruct (MsgGetHeaders.VVSDecode pver enc (asHeaders b0, e))
      as [[hb eb] rb] eqn:Eb.
    destruct (MsgGetHeaders.VVSDecode pver enc (h0, e)) as [[h' e'] rh] eqn:Eh.
    rewrite GetHeaders_VVSDecode_eq in Eb, Eh.
    destruct (decode_sem_receiver "MsgGetHeaders.VVSDecode" pver
                (asHeaders b0) h0 e) as (Hr & He & Hm).
    rewrite Eb, Eh in Hr, He, Hm. cbn [fst snd] in *. subst rb eb.
    exists (asBlocks hb), h', e', (blocksRes rh), rh.
    split; [reflexivity|]. split; [reflexivity|]. split.
    + destruct rh as [[]|er|w]; cbn; auto.
    + intros Hok. rewrite <- (Hm Hok). destruct hb; cbn. auto.
Qed.

Lemma GetBlocks_GetHeaders_same_wire_witness :
  (exists e' rb rh,
     MsgGetBlocks.VVSEncode (asBlocks twoLocators) 0 0 writing = (e', rb) /\
     MsgGetHeaders.VVSEncode twoLocators 0 0 writing = (e', rh) /\
     sameOutcome rb rh).
Proof.
  apply (GetBlocks_GetHeaders_same_wire 0 0 (asBlocks twoLocators) twoLocators
           writing); reflexivity.
Defined.

(** * Further properties of the codec *)

(** ** What the encoder returns *)

Lemma locatorBytes_nil (l : list (option common.Hash)) :
  forallb (fun p : option common.Hash => bool_decide (is_Some p)) l = false ->
  exists bs, locatorBytes l = (bs, false).
Proof.
  induction l as [|[h|] l IH]; cbn [forallb locatorBytes].
  - discriminate.
  - rewrite bool_decide_eq_true_2 by (eexists; reflexivity). cbn [andb].
    intros H. destruct (IH H) as [bs ->]. eexists. reflexivity.
  - intros _. eexists. reflexivity.
Qed.

Lemma encode_sem_nil (who : string) (msg : MsgGetHeaders.t) (e : Env) :
  Z.of_nat (length (MsgGetHeaders.BlockLocatorHashes msg)) <= MaxBlockLocatorsPerMsg ->
  no_nil msg = false ->
  exists e', encode_sem who msg e = (e', Panic "nil pointer dereference").
Proof.
  intros Hb Hnn. unfold encode_sem. cbn zeta.
  destruct (_ >? _) eqn:Hgt; [apply Z.gtb_lt in Hgt; lia|].
  destruct (locatorBytes_nil _ Hnn) as [bs ->]. eexists. reflexivity.
Qed.

Lemma encode_sem_too_many (who : string) (msg : MsgGetHeaders.t) (e : Env) :
  MaxBlockLocatorsPerMsg < Z.of_nat (length (MsgGetHeaders.BlockLocatorHashes msg)) ->
  encode_sem who msg e =
  (e, Err (MessageError who
       (tooManyOnWire (Z.of_nat (length (MsgGetHeaders.BlockLocatorHashes msg)))))).
Proof.
  intros H. unfold encode_sem. cbn zeta.
  rewrite (proj2 (Z.gtb_lt _ _)) by exact H. reflexivity.
Qed.

(** X1: the three ways the encoder ends, for both messages.  With more
    than [MaxBlockLocatorsPerMsg] locators it returns the error of
    [VVSEncode], which carries the count, and writes nothing.  Within the
    bound it panics if some locator is nil.  Otherwise it succeeds and
    writes the version, the count, the hashes in order and the stop hash. *)
Theorem VVSEncode_outcomes (pver : Z) (enc : MessageEncoding)
    (msg : MsgGetHeaders.t) (e : Env) :
  (MaxBlockLocatorsPerMsg < Z.of_nat (length (MsgGetHeaders.BlockLocatorHashes msg)) ->
   MsgGetHeaders.VVSEncode msg pver enc e =
   (e, Err (MessageError "MsgGetHeaders.VVSEncode"
         (tooManyOnWire (Z.of_nat (length (MsgGetHeaders.BlockLocatorHashes msg)))))) /\
   MsgGetBlocks.VVSEncode (asBlocks msg) pver enc e =
   (e, Err (MessageError "MsgGetBlocks.VVSEncode"
         (tooManyOnWire (Z.of_nat (length (MsgGetHeaders.BlockLocatorHashes msg))))))) /\
  (Z.of_nat (length (MsgGetHeaders.BlockLocatorHashes msg)) <= MaxBlockLocatorsPerMsg ->
   no_nil msg = false ->
   exists e',
     MsgGetHeaders.VVSEncode msg pver enc e = (e', Panic "nil pointer dereference") /\
     MsgGetBlocks.VVSEncode (asBlocks msg) pver enc e =
     (e', Panic "nil pointer dereference")) /\
  (Z.of_nat (length (MsgGetHeaders.BlockLocatorHashes msg)) <= MaxBlockLocatorsPerMsg ->
   no_nil msg = true ->
   MsgGetHeaders.VVSEncode msg pver enc e =
   (appendOut e
      (le_bytes 4 (MsgGetHeaders.ProtocolVersion msg) ++
       varint_bytes (Z.of_nat (length (MsgGetHeaders.BlockLocatorHashes msg))) ++
       concat (hashesOf (MsgGetHeaders.BlockLocatorHashes msg)) ++
       MsgGetHeaders.HashStop msg), Ok tt) /\
   MsgGetBlocks.VVSEncode (asBlocks msg) pver enc e =
   MsgGetHeaders.VVSEncode msg pver enc e).
Proof.
  rewrite GetHeaders_VVSEncode_eq, GetBlocks_VVSEncode_eq, asHeaders_asBlocks.
  split; [|split].
  - intros H. rewrite !encode_sem_too_many by exact H. split; reflexivity.
  - intros Hb Hnn.
    destruct (encode_sem_nil "MsgGetHeaders.VVSEncode" msg e Hb Hnn) as [e1 H1].
    destruct (encode_sem_nil "MsgGetBlocks.VVSEncode" msg e Hb Hnn) as [e2 H2].
    exists e1. split; [exact H1|]. rewrite H2. f_equal.
    unfold encode_sem in H1, H2. cbn zeta in H1, H2.
    destruct (_ >? _); [discriminate|].
    destruct (locatorBytes _) as [bs [|]]; congruence.
  - intros Hb Hnn.
    rewrite !encode_sem_payload by (try exact Hnn; unfold within_bound; lia).
    split; reflexivity.
Qed.

Lemma VVSEncode_outcomes_witness :
  MsgGetHeaders.VVSEncode
    (MsgGetHeaders.mk 1 (replicate 501 (Some common.zeroHash)) common.zeroHash)
    0 0 writing =
  (writing, Err (MessageError "MsgGetHeaders.VVSEncode"
     "too many block locator hashes for message [count 501, max 500]")) /\
  (exists e',
     MsgGetHeaders.VVSEncode
       (MsgGetHeaders.mk 1 [Some common.zeroHash; None] common.zeroHash)
       0 0 writing = (e', Panic "nil pointer dereference") /\
     MsgGetBlocks.VVSEncode
       (asBlocks (MsgGetHeaders.mk 1 [Some common.zeroHash; None] common.zeroHash))
       0 0 writing = (e', Panic "nil pointer dereference")) /\
  MsgGetBlocks.VVSEncode (asBlocks twoLocators) 0 0 writing =
  MsgGetHeaders.VVSEncode twoLocators 0 0 writing.
Proof.
  split; [|split].
  - apply (VVSEncode_outcomes 0 0
      (MsgGetHeaders.mk 1 (replicate 501 (Some common.zeroHash)) common.zeroHash)
      writing).
    vm_compute. reflexivity.
  - apply (VVSEncode_outcomes 0 0
      (MsgGetHeaders.mk 1 [Some common.zeroHash; None] common.zeroHash) writing).
    + vm_compute. discriminate.
    + reflexivity.
  - apply (VVSEncode_outcomes 0 0 twoLocators writing).
    + vm_compute. discriminate.
    + reflexivity.
Defined.

(** X2: the mutator does not look at the pointer it is given.  On a
    message with room it accepts the nil pointer, and the message it
    leaves makes the encoder panic.  Both messages. *)
Theorem AddBlockLocatorHash_nil_then_VVSEncode (pver : Z) (enc : MessageEncoding)
    (msg : MsgGetHeaders.t) (e : Env) :
  Z.of_nat (length (MsgGetHeaders.BlockLocatorHashes msg)) < MaxBlockLocatorsPerMsg ->
  exists msg',
    MsgGetHeaders.AddBlockLocatorHash None msg = (msg', Ok tt) /\
    MsgGetBlocks.AddBlockLocatorHash None (asBlocks msg) = (asBlocks msg', Ok tt) /\
    MsgGetHeaders.BlockLocatorHashes msg' =
    MsgGetHeaders.BlockLocatorHashes msg ++ [None] /\
    exists e',
      MsgGetHeaders.VVSEncode msg' pver enc e = (e', Panic "nil pointer dereference") /\
      MsgGetBlocks.VVSEncode (asBlocks msg') pver enc e =
      (e', Panic "nil pointer dereference").
Proof.
  intros Hroom. eexists. split; [apply GetHeaders_add_room, Hroom|].
  split.
  { rewrite GetBlocks_add_room by (destruct msg; exact Hroom).
    destruct msg; reflexivity. }
  split; [reflexivity|].
  set (msg' := MsgGetHeaders.setBlockLocatorHashes _ msg).
  assert (Hb : Z.of_nat (length (MsgGetHeaders.BlockLocatorHashes msg'))
               <= MaxBlockLocatorsPerMsg).
  { unfold msg'. cbn. rewrite length_app. cbn [length]. lia. }
  assert (Hnn : no_nil msg' = false).
  { unfold no_nil, msg'. cbn. rewrite forallb_app. cbn.
    apply andb_false_r. }
  rewrite GetHeaders_VVSEncode_eq, GetBlocks_VVSEncode_eq, asHeaders_asBlocks.
  destruct (encode_sem_nil "MsgGetHeaders.VVSEncode" msg' e Hb Hnn) as [e1 H1].
  destruct (encode_sem_nil "MsgGetBlocks.VVSEncode" msg' e Hb Hnn) as [e2 H2].
  exists e1. split; [exact H1|]. rewrite H2. f_equal.
  unfold encode_sem in H1, H2. cbn zeta in H1, H2.
  destruct (_ >? _); [discriminate|].
  destruct (locatorBytes _) as [bs [|]]; congruence.
Qed.

Lemma AddBlockLocatorHash_nil_then_VVSEncode_witness :
  exists msg',
    MsgGetHeaders.AddBlockLocatorHash None twoLocators = (msg', Ok tt) /\
    MsgGetBlocks.AddBlockLocatorHash None (asBlocks twoLocators) =
    (asBlocks msg', Ok tt) /\
    MsgGetHeaders.BlockLocatorHashes msg' =
    MsgGetHeaders.BlockLocatorHashes twoLocators ++ [None] /\
    exists e',
      MsgGetHeaders.VVSEncode msg' 0 0 writing =
      (e', Panic "nil pointer dereference") /\
      MsgGetBlocks.VVSEncode (asBlocks msg') 0 0 writing =
      (e', Panic "nil pointer dereference").
Proof.
  apply (AddBlockLocatorHash_nil_then_VVSEncode 0 0 twoLocators writing).
  vm_compute. reflexivity.
Defined.

(** ** Length and injectivity of the encoding *)

Lemma length_varint_bytes_count (c : Z) :
  c <= 0xffff ->
  Z.of_nat (length (varint_bytes c)) = if c <? 0xfd then 1 else 3.
Proof.
  intros Hc. unfold varint_bytes.
  destruct (c <? 253); [reflexivity|].
  rewrite (proj2 (Z.leb_le c 65535)) by exact Hc.
  cbn [length]. rewrite length_le_bytes. reflexivity.
Qed.

Lemma encode_sem_length (who : string) (msg : MsgGetHeaders.t) (e e' : Env) :
  wf_msg msg = true ->
  encode_sem who msg e = (e', Ok tt) ->
  Z.of_nat (length (wbuf e')) =
  Z.of_nat (length (wbuf e)) +
  (if Z.of_nat (length (MsgGetHeaders.BlockLocatorHashes msg)) <? 0xfd
   then 37 else 39) +
  32 * Z.of_nat (length (MsgGetHeaders.BlockLocatorHashes msg)).
Proof.
  intros Hwf He. apply encode_sem_ok_inv in He as (Hnn & [_ Hb] & ->).
  cbn [appendOut wbuf]. rewrite length_app, Nat2Z.inj_add.
  rewrite length_payload by assumption.
  rewrite length_varint_bytes_count by (unfold MaxBlockLocatorsPerMsg in Hb; lia).
  unfold common.HashLength. destruct (_ <? _); lia.
Qed.

(** X3: the exact length of an encoding, for both messages.  A successful
    encoding of a message with [n] locator hashes adds 37 + 32 * [n] bytes
    to the output when [n] is below 253 (one-byte count), and
    39 + 32 * [n] bytes otherwise (three-byte count). *)
Theorem VVSEncode_length (pver : Z) (enc : MessageEncoding)
    (msg : MsgGetHeaders.t) (e : Env) :
  wf_msg msg = true ->
  (forall e',
     MsgGetHeaders.VVSEncode msg pver enc e = (e', Ok tt) ->
     Z.of_nat (length (wbuf e')) =
     Z.of_nat (length (wbuf e)) +
     (if Z.of_nat (length (MsgGetHeaders.BlockLocatorHashes msg)) <? 0xfd
      then 37 else 39) +
     32 * Z.of_nat (length (MsgGetHeaders.BlockLocatorHashes msg))) /\
  (forall e',
     MsgGetBlocks.VVSEncode (asBlocks msg) pver enc e = (e', Ok tt) ->
     Z.of_nat (length (wbuf e')) =
     Z.of_nat (length (wbuf e)) +
     (if Z.of_nat (length (MsgGetHeaders.BlockLocatorHashes msg)) <? 0xfd
      then 37 else 39) +
     32 * Z.of_nat (length (MsgGetHeaders.BlockLocatorHashes msg))).
Proof.
  intros Hwf. split; intros e' He.
  - rewrite GetHeaders_VVSEncode_eq in He.
    exact (encode_sem_length _ _ _ _ Hwf He).
  - rewrite GetBlocks_VVSEncode_eq, asHeaders_asBlocks in He.
    exact (encode_sem_length _ _ _ _ Hwf He).
Qed.

Lemma VVSEncode_length_witness :
  Z.of_nat (length (wbuf (mkEnv [] (payload twoLocators) []))) =
  Z.of_nat (length (wbuf writing)) +
  (if Z.of_nat (length (MsgGetHeaders.BlockLocatorHashes twoLocators)) <? 0xfd
   then 37 else 39) +
  32 * Z.of_nat (length (MsgGetHeaders.BlockLocatorHashes twoLocators)).
Proof.
  apply (proj1 (VVSEncode_length 0 0 twoLocators writing eq_refl)).
  reflexivity.
Defined.

Lemma encode_sem_inj (who1 who2 : string) (m1 m2 : MsgGetHeaders.t)
    (e e' : Env) :
  wf_msg m1 = true -> wf_msg m2 = true ->
  encode_sem who1 m1 e = (e', Ok tt) ->
  encode_sem who2 m2 e = (e', Ok tt) ->
  m1 = m2.
Proof.
  intros Hwf1 Hwf2 H1 H2.
  apply encode_sem_ok_inv in H1 as (Hnn1 & Hb1 & ->).
  apply encode_sem_ok_inv in H2 as (Hnn2 & Hb2 & H2).
  unfold appendOut in H2. injection H2 as H2. apply app_inv_head in H2.
  pose proof (decode_sem_payload "" 0 m1 m1 [] [] [] Hwf1 Hnn1 Hb1) as D1.
  pose proof (decode_sem_payload "" 0 m2 m1 [] [] [] Hwf2 Hnn2 Hb2) as D2.
  cbn zeta in D1, D2. rewrite H2 in D1. rewrite D1 in D2. congruence.
Qed.

(** X4: the encoding is injective.  Two well-formed messages, of either
    kind, that encode successfully to the same bytes have the same
    ProtocolVersion, the same locator hashes and the same HashStop. *)
Theorem VVSEncode_injective (pver : Z) (enc : MessageEncoding)
    (m1 m2 : MsgGetHeaders.t) (e e' : Env) :
  wf_msg m1 = true -> wf_msg m2 = true ->
  (MsgGetHeaders.VVSEncode m1 pver enc e = (e', Ok tt) ->
   MsgGetHeaders.VVSEncode m2 pver enc e = (e', Ok tt) -> m1 = m2) /\
  (MsgGetBlocks.VVSEncode (asBlocks m1) pver enc e = (e', Ok tt) ->
   MsgGetBlocks.VVSEncode (asBlocks m2) pver enc e = (e', Ok tt) -> m1 = m2) /\
  (MsgGetBlocks.VVSEncode (asBlocks m1) pver enc e = (e', Ok tt) ->
   MsgGetHeaders.VVSEncode m2 pver enc e = (e', Ok tt) -> m1 = m2).
Proof.
  intros Hwf1 Hwf2.
  rewrite !GetHeaders_VVSEncode_eq, !GetBlocks_VVSEncode_eq, !asHeaders_asBlocks.
  repeat split; apply encode_sem_inj; assumption.
Qed.

Lemma VVSEncode_injective_witness :
  MsgGetHeaders.mk 70001 [Some (replicate 32 x01); Some (replicate 32 x02)]
    (replicate 32 xff) = twoLocators.
Proof.
  apply (proj1 (VVSEncode_injective 0 0
    (MsgGetHeaders.mk 70001 [Some (replicate 32 x01); Some (replicate 32 x02)]
       (replicate 32 xff)) twoLocators writing
    (mkEnv [] (payload twoLocators) []) eq_refl eq_refl));
    reflexivity.
Defined.

(** ** Payloads in a stream *)

Lemma GetHeaders_decode_payload (pver : Z) (enc : MessageEncoding)
    (msg m0 : MsgGetHeaders.t) (rest w : list byte) (m : list Z) :
  wf_msg msg = true -> no_nil msg = true ->
  within_bound (MsgGetHeaders.BlockLocatorHashes msg) ->
  MsgGetHeaders.VVSDecode pver enc (m0, mkEnv (payload msg ++ rest) w m) =
  ((msg, mkEnv rest w
           (Z.of_nat (length (MsgGetHeaders.BlockLocatorHashes msg)) ::
            Z.of_nat (length (MsgGetHeaders.BlockLocatorHashes msg)) :: m)),
   Ok tt).
Proof.
  intros Hwf Hnn Hb. rewrite GetHeaders_VVSDecode_eq.
  apply decode_sem_payload; assumption.
Qed.

Lemma GetBlocks_decode_payload (pver : Z) (enc : MessageEncoding)
    (msg : MsgGetHeaders.t) (b0 : MsgGetBlocks.t) (rest w : list byte)
    (m : list Z) :
  wf_msg msg = true -> no_nil msg = true ->
  within_bound (MsgGetHeaders.BlockLocatorHashes msg) ->
  MsgGetBlocks.VVSDecode pver enc (b0, mkEnv (payload msg ++ rest) w m) =
  ((asBlocks msg, mkEnv rest w
           (Z.of_nat (length (MsgGetHeaders.BlockLocatorHashes msg)) ::
            Z.of_nat (length (MsgGetHeaders.BlockLocatorHashes msg)) :: m)),
   Ok tt).
Proof.
  intros Hwf Hnn Hb. rewrite GetBlocks_VVSDecode_eq'.
  rewrite decode_sem_payload by assumption. reflexivity.
Qed.

(** X5: round trip of [MsgGetBlocks], in a longer stream.  A well-formed
    getblocks request without nil locator and within the bound encodes
    successfully; decoding a stream that starts with the bytes written,
    into any receiver, gives back the request and leaves what follows
    them in the stream, untouched. *)
Theorem GetBlocks_round_trip_in_stream (pver pver' : Z)
    (enc enc' : MessageEncoding) (b b0 : MsgGetBlocks.t) (rest : list byte) :
  wf_msg (asHeaders b) = true ->
  no_nil (asHeaders b) = true ->
  within_bound (MsgGetBlocks.BlockLocatorHashes b) ->
  exists bytes,
    MsgGetBlocks.VVSEncode b pver enc writing = (mkEnv [] bytes [], Ok tt) /\
    exists e',
      MsgGetBlocks.VVSDecode pver' enc' (b0, reading (bytes ++ rest)) =
      ((b, e'), Ok tt) /\
      rbuf e' = rest.
Proof.
  intros Hwf Hnn Hb.
  assert (Hb' : within_bound (MsgGetHeaders.BlockLocatorHashes (asHeaders b)))
    by (destruct b; exact Hb).
  exists (payload (asHeaders b)). split.
  - rewrite GetBlocks_VVSEncode_eq, encode_sem_payload by assumption.
    reflexivity.
  - eexists. unfold reading.
    rewrite GetBlocks_decode_payload by assumption.
    rewrite asBlocks_asHeaders. split; reflexivity.
Qed.

Lemma GetBlocks_round_trip_in_stream_witness :
  exists bytes,
    MsgGetBlocks.VVSEncode (asBlocks twoLocators) 0 0 writing =
    (mkEnv [] bytes [], Ok tt) /\
    exists e',
      MsgGetBlocks.VVSDecode 0 0
        (MsgGetBlocks.mk 9 [None] [], reading (bytes ++ [x2a; x2b])) =
      ((asBlocks twoLocators, e'), Ok tt) /\
      rbuf e' = [x2a; x2b].
Proof.
  apply (GetBlocks_round_trip_in_stream 0 0 0 0 (asBlocks twoLocators)
           (MsgGetBlocks.mk 9 [None] []) [x2a; x2b]).
  - reflexivity.
  - reflexivity.
  - unfold within_bound, MaxBlockLocatorsPerMsg. simpl. lia.
Defined.

(** X6: messages back to back.  A getheaders request and then a getblocks
    request written to the same stream are read back by one call of each
    decoder, in that order: the first decode stops where the second
    payload starts and the second one empties the stream. *)
Theorem VVSEncode_twice_VVSDecode_twice (pver : Z) (enc : MessageEncoding)
    (a a0 : MsgGetHeaders.t) (b b0 : MsgGetBlocks.t) :
  wf_msg a = true -> no_nil a = true ->
  within_bound (MsgGetHeaders.BlockLocatorHashes a) ->
  wf_msg (asHeaders b) = true -> no_nil (asHeaders b) = true ->
  within_bound (MsgGetBlocks.BlockLocatorHashes b) ->
  exists bytes e1 e2,
    (MsgGetHeaders.VVSEncode a pver enc ;; MsgGetBlocks.VVSEncode b pver enc)
      writing = (mkEnv [] bytes [], Ok tt) /\
    MsgGetHeaders.VVSDecode pver enc (a0, reading bytes) = ((a, e1), Ok tt) /\
    MsgGetBlocks.VVSDecode pver enc (b0, e1) = ((b, e2), Ok tt) /\
    rbuf e2 = [].
Proof.
  intros Hwfa Hnna Hba Hwfb Hnnb Hbb.
  assert (Hbb' : within_bound (MsgGetHeaders.BlockLocatorHashes (asHeaders b)))
    by (destruct b; exact Hbb).
  exists (payload a ++ payload (asHeaders b)). do 2 eexists.
  split; [|split; [|split]].
  - unfold bind. rewrite GetHeaders_VVSEncode_eq, encode_sem_payload by assumption.
    rewrite GetBlocks_VVSEncode_eq, encode_sem_payload by assumption.
    rewrite appendOut_app. reflexivity.
  - unfold reading. apply GetHeaders_decode_payload; assumption.
  - rewrite <- (app_nil_r (payload (asHeaders b))).
    rewrite GetBlocks_decode_payload by assumption.
    rewrite asBlocks_asHeaders. reflexivity.
  - reflexivity.
Qed.

Lemma VVSEncode_twice_VVSDecode_twice_witness :
  exists bytes e1 e2,
    (MsgGetHeaders.VVSEncode twoLocators 0 0 ;;
     MsgGetBlocks.VVSEncode (asBlocks MsgGetHeaders.NewMsgGetHeaders) 0 0)
      writing = (mkEnv [] bytes [], Ok tt) /\
    MsgGetHeaders.VVSDecode 0 0 (MsgGetHeaders.NewMsgGetHeaders, reading bytes) =
    ((twoLocators, e1), Ok tt) /\
    MsgGetBlocks.VVSDecode 0 0 (asBlocks twoLocators, e1) =
    ((asBlocks MsgGetHeaders.NewMsgGetHeaders, e2), Ok tt) /\
    rbuf e2 = [].
Proof.
  apply (VVSEncode_twice_VVSDecode_twice 0 0 twoLocators
           MsgGetHeaders.NewMsgGetHeaders
           (asBlocks MsgGetHeaders.NewMsgGetHeaders) (asBlocks twoLocators));
    try reflexivity;
    unfold within_bound, MaxBlockLocatorsPerMsg; simpl; lia.
Defined.

(** X7: a payload does not tell which message it is.  The bytes either
    encoder writes for a request are decoded by the other message's
    decoder, successfully, into the request with the same ProtocolVersion,
    locator hashes and HashStop. *)
Theorem VVSDecode_other_variant (pver : Z) (enc : MessageEncoding)
    (msg h0 : MsgGetHeaders.t) (b0 : MsgGetBlocks.t) :
  wf_msg msg = true -> no_nil msg = true ->
  within_bound (MsgGetHeaders.BlockLocatorHashes msg) ->
  exists bytes e',
    MsgGetBlocks.VVSEncode (asBlocks msg) pver enc writing =
      (mkEnv [] bytes [], Ok tt) /\
    MsgGetHeaders.VVSDecode pver enc (h0, reading bytes) = ((msg, e'), Ok tt) /\
    MsgGetHeaders.VVSEncode msg pver enc writing = (mkEnv [] bytes [], Ok tt) /\
    MsgGetBlocks.VVSDecode pver enc (b0, reading bytes) =
      ((asBlocks msg, e'), Ok tt).
Proof.
  intros Hwf Hnn Hb. exists (payload msg). eexists.
  rewrite GetBlocks_VVSEncode_eq, GetHeaders_VVSEncode_eq, asHeaders_asBlocks.
  rewrite !encode_sem_payload by assumption.
  split; [reflexivity|]. split.
  - unfold reading. rewrite <- (app_nil_r (payload msg)).
    apply GetHeaders_decode_payload; assumption.
  - split; [reflexivity|].
    unfold reading. rewrite <- (app_nil_r (payload msg)).
    apply GetBlocks_decode_payload; assumption.
Qed.

Lemma VVSDecode_other_variant_witness :
  exists bytes e',
    MsgGetBlocks.VVSEncode (asBlocks twoLocators) 0 0 writing =
      (mkEnv [] bytes [], Ok tt) /\
    MsgGetHeaders.VVSDecode 0 0 (MsgGetHeaders.NewMsgGetHeaders, reading bytes) =
      ((twoLocators, e'), Ok tt) /\
    MsgGetHeaders.VVSEncode twoLocators 0 0 writing = (mkEnv [] bytes [], Ok tt) /\
    MsgGetBlocks.VVSDecode 0 0 (MsgGetBlocks.mk 0 [] [], reading bytes) =
      ((asBlocks twoLocators, e'), Ok tt).
Proof.
  apply (VVSDecode_other_variant 0 0 twoLocators MsgGetHeaders.NewMsgGetHeaders
           (MsgGetBlocks.mk 0 [] [])).
  - reflexivity.
  - reflexivity.
  - unfold within_bound, MaxBlockLocatorsPerMsg. simpl. lia.
Defined.

(** ** What the decoder returns *)

Lemma ReadVarInt_width (pver : Z) (e e' : Env) (c : Z) :
  serialization.ReadVarInt pver e = (e', Ok c) ->
  exists bs, rbuf e = bs ++ rbuf e' /\ (length bs <= 9)%nat.
Proof.
  unfold serialization.ReadVarInt. unfold bind at 1.
  destruct (ReadFull 1 e) as [e1 r1] eqn:E1.
  apply ReadFull_inv in E1 as (_ & _ & [(d & -> & Hl1 & Hr1) | (-> & _)]);
    [|discriminate].
  assert (Hwide : forall n, (n <= 8)%nat ->
    (bs <- ReadFull n ;; ret (le_value bs)) e1 = (e', Ok c) ->
    exists bs, rbuf e = bs ++ rbuf e' /\ (length bs <= 9)%nat).
  { intros n Hn. unfold bind, ret.
    destruct (ReadFull n e1) as [e2 r2] eqn:E2.
    apply ReadFull_inv in E2 as (_ & _ & [(bs & -> & Hl2 & Hr2) | (-> & _)]);
      [|discriminate].
    intros [= <- _]. exists (d ++ bs). split.
    - rewrite Hr1, Hr2, app_assoc. reflexivity.
    - rewrite length_app. lia. }
  cbn zeta.
  destruct (le_value d =? 255); [apply Hwide; lia|].
  destruct (le_value d =? 254); [apply Hwide; lia|].
  destruct (le_value d =? 253); [apply Hwide; lia|].
  unfold ret. intros [= <- _]. exists d. split; [exact Hr1 | lia].
Qed.

Lemma readHeader_shape (pver : Z) (e e2 : Env) (v count : Z) :
  readHeader pver e = (e2, Ok (v, count)) ->
  0 <= v < 2 ^ 32 /\
  exists header, rbuf e = header ++ rbuf e2 /\ (length header <= 13)%nat.
Proof.
  intros H. apply readHeader_inv in H as (e1 & Hv & Hc & _).
  apply ReadUint32_inv in Hv as (_ & _ & [(b1 & [= ->] & Hl1 & Hr1) | ([=] & _)]).
  apply ReadVarInt_width in Hc as (b2 & Hr2 & Hl2).
  split.
  - pose proof (le_value_range b1) as Hr. rewrite Hl1 in Hr.
    change (256 ^ Z.of_nat 4) with (2 ^ 32) in Hr. exact Hr.
  - exists (b1 ++ b2). split.
    + rewrite Hr1, Hr2, app_assoc. reflexivity.
    + rewrite length_app. lia.
Qed.

Lemma GetBlocks_VVSDecode_inv (pver : Z) (enc : MessageEncoding)
    (b b' : MsgGetBlocks.t) (e e' : Env) (r : res unit) :
  MsgGetBlocks.VVSDecode pver enc (b, e) = ((b', e'), r) <->
  decode_sem "MsgGetBlocks.VVSDecode" pver (asHeaders b, e) =
  ((asHeaders b', e'), r).
Proof.
  rewrite GetBlocks_VVSDecode_eq'.
  destruct (decode_sem _ pver (asHeaders b, e)) as [[m1 e1] r1].
  unfold inBlocks. cbn [fst snd]. split.
  - intros [= <- <- <-]. rewrite asHeaders_asBlocks. reflexivity.
  - intros [= -> <- <-]. rewrite asBlocks_asHeaders. reflexivity.
Qed.

Lemma decode_sem_kinds (who : string) (pver : Z) (msg : MsgGetHeaders.t)
    (e : Env) s' r :
  decode_sem who pver (msg, e) = (s', r) ->
  (r = Ok tt \/
   (exists er, r = Err er /\ StreamFailure er) \/
   (exists count, MaxBlockLocatorsPerMsg < count /\
      r = Err (MessageError who (tooManyOnWire count)))) /\
  (made (snd s') = made e \/
   exists count, 0 <= count <= MaxBlockLocatorsPerMsg /\
     made (snd s') = count :: count :: made e).
Proof.
  intros Hd.
  destruct (decode_sem_outcome who pver msg e)
    as [(e2 & er & m1 & Hd' & _ & _ & Hs & Hm & _) |
       [(e2 & v & c & Eh & Hgt & Hd') |
       [(e2 & v & c & hs & e1 & er & Eh & Hc & _ & Hd' & Hs & _ & _ & _ & _ & Hm) |
        (e2 & v & c & hs & stop & rest & Eh & Hc & _ & _ & _ & _ & Hd')]]];
    rewrite Hd in Hd'; injection Hd' as -> ->; cbn [fst snd].
  - split; [right; left; eauto | left; exact Hm].
  - apply readHeader_inv in Eh as (_ & _ & _ & _ & _ & Hm & _).
    split; [right; right; eauto | left; exact Hm].
  - split; [right; left; eauto | right; eauto].
  - split; [left; reflexivity | right; eauto].
Qed.

(** X8: the decoder never panics.  Whatever the receiver and the input,
    [VVSDecode] returns: with success, with a stream failure ([io.EOF] or
    [io.ErrUnexpectedEOF]), or with its own error for a declared count
    above [MaxBlockLocatorsPerMsg], which carries that count.  Both
    messages. *)
Theorem VVSDecode_never_panics (pver : Z) (enc : MessageEncoding) (e : Env) :
  (forall msg s' r,
     MsgGetHeaders.VVSDecode pver enc (msg, e) = (s', r) ->
     r = Ok tt \/
     (exists er, r = Err er /\ StreamFailure er) \/
     (exists count, MaxBlockLocatorsPerMsg < count /\
        r = Err (MessageError "MsgGetHeaders.VVSDecode" (tooManyOnWire count)))) /\
  (forall msg s' r,
     MsgGetBlocks.VVSDecode pver enc (msg, e) = (s', r) ->
     r = Ok tt \/
     (exists er, r = Err er /\ StreamFailure er) \/
     (exists count, MaxBlockLocatorsPerMsg < count /\
        r = Err (MessageError "MsgGetBlocks.VVSDecode" (tooManyOnWire count)))).
Proof.
  split; intros msg s' r Hd.
  - rewrite GetHeaders_VVSDecode_eq in Hd.
    exact (proj1 (decode_sem_kinds _ _ _ _ _ _ Hd)).
  - destruct s' as [b' e']. apply GetBlocks_VVSDecode_inv in Hd.
    exact (proj1 (decode_sem_kinds _ _ _ _ _ _ Hd)).
Qed.

Lemma VVSDecode_never_panics_witness :
  @Err unit ErrUnexpectedEOF = Ok tt \/
  (exists er, @Err unit ErrUnexpectedEOF = Err er /\ StreamFailure er) \/
  (exists count, MaxBlockLocatorsPerMsg < count /\
     @Err unit ErrUnexpectedEOF =
     Err (MessageError "MsgGetHeaders.VVSDecode" (tooManyOnWire count))).
Proof.
  apply (proj1 (VVSDecode_never_panics 0 0 (reading cutStream))
           MsgGetHeaders.NewMsgGetHeaders
           (MsgGetHeaders.mk 70001 [Some (replicate 32 x03)] common.zeroHash,
            mkEnv [] [] [2; 2])).
  reflexivity.
Defined.



(** ** When the decoder succeeds *)

Lemma decode_sem_success_iff (who : string) (pver : Z)
    (msg : MsgGetHeaders.t) (bs : list byte) :
  (exists m' e', decode_sem who pver (msg, reading bs) = ((m', e'), Ok tt)) <->
  truncated pver bs = false /\ countWithinBound pver bs = true.
Proof.
  unfold truncated, countWithinBound, declaredCount.
  destruct (decode_sem_outcome who pver msg (reading bs))
    as [(e2 & er & m1 & Hd & Hno & _) |
       [(e2 & v & c & Eh & Hgt & Hd) |
       [(e2 & v & c & hs & e1 & er & Eh & Hc & Hshort & Hd & _) |
        (e2 & v & c & hs & stop & rest & Eh & Hc & Hsplit & Hlen & Hall & Hstop & Hd)]]].
  - split.
    + intros (m' & e' & H). rewrite H in Hd. discriminate.
    + intros [Ht _].
      destruct (readHeader pver (reading bs)) as [e0 [[v c]|er0|w0]];
        [destruct (Hno e0 (v, c) eq_refl) | discriminate | discriminate].
  - rewrite Eh. split.
    + intros (m' & e' & H). rewrite H in Hd. discriminate.
    + intros [_ Hc]. apply Z.leb_le in Hc. lia.
  - rewrite Eh. split.
    + intros (m' & e' & H). rewrite H in Hd. discriminate.
    + intros [Ht _]. apply Z.ltb_ge in Ht. lia.
  - rewrite Eh. split.
    + intros _. split.
      * apply Z.ltb_ge.
        rewrite Hsplit, !length_app, (length_concat_hashes hs Hall), Hstop, Hlen.
        unfold common.HashLength. lia.
      * apply Z.leb_le. lia.
    + intros _. eauto.
Qed.

(** X10: when decoding succeeds.  [VVSDecode] succeeds on a stream exactly
    when the stream holds a complete header, declares at most
    [MaxBlockLocatorsPerMsg] locator hashes, and holds the declared number
    of 32-byte hashes and a 32-byte stop hash after the header.  Both
    messages, any receiver. *)
Theorem VVSDecode_succeeds_iff (pver : Z) (enc : MessageEncoding)
    (bs : list byte) :
  (forall msg,
     (exists m' e',
        MsgGetHeaders.VVSDecode pver enc (msg, reading bs) = ((m', e'), Ok tt))
     <-> truncated pver bs = false /\ countWithinBound pver bs = true) /\
  (forall msg,
     (exists m' e',
        MsgGetBlocks.VVSDecode pver enc (msg, reading bs) = ((m', e'), Ok tt))
     <-> truncated pver bs = false /\ countWithinBound pver bs = true).
Proof.
  split; intros msg.
  - rewrite <- (decode_sem_success_iff "MsgGetHeaders.VVSDecode" pver msg bs).
    split; intros (m' & e' & H); exists m', e';
      [rewrite <- (GetHeaders_VVSDecode_eq pver enc)
      | rewrite (GetHeaders_VVSDecode_eq pver enc)];
      exact H.
  - rewrite <- (decode_sem_success_iff "MsgGetBlocks.VVSDecode" pver
                  (asHeaders msg) bs).
    split; intros (m' & e' & H).
    + exists (asHeaders m'), e'. apply (GetBlocks_VVSDecode_inv pver enc). exact H.
    + exists (asBlocks m'), e'. apply (GetBlocks_VVSDecode_inv pver enc).
      rewrite asHeaders_asBlocks. exact H.
Qed.

Lemma VVSDecode_succeeds_iff_witness :
  exists m' e',
    MsgGetHeaders.VVSDecode 0 0
      (MsgGetHeaders.NewMsgGetHeaders, reading (payload twoLocators ++ [x2a])) =
    ((m', e'), Ok tt).
Proof.
  apply (proj1 (VVSDecode_succeeds_iff 0 0 (payload twoLocators ++ [x2a]))
           MsgGetHeaders.NewMsgGetHeaders).
  split; reflexivity.
Defined.

Lemma wf_decoded (v : Z) (hs : list common.Hash) (stop : common.Hash) :
  0 <= v < 2 ^ 32 ->
  Forall (fun h => length h = common.HashLength) hs ->
  length stop = common.HashLength ->
  wf_msg (MsgGetHeaders.mk v (Some <$> hs) stop) = true /\
  no_nil (MsgGetHeaders.mk v (Some <$> hs) stop) = true.
Proof.
  intros Hv Hall Hstop. unfold wf_msg, no_nil.
  cbn [MsgGetHeaders.ProtocolVersion MsgGetHeaders.BlockLocatorHashes
       MsgGetHeaders.HashStop].
  rewrite (proj2 (Z.leb_le 0 v)), (proj2 (Z.ltb_lt v (2 ^ 32))) by lia.
  assert (Hs : common.wf_hash stop = true)
    by (apply bool_decide_eq_true; exact Hstop).
  rewrite Hs. cbn [andb].
  induction Hall as [|h hs Hh _ [IH1 IH2]]; [split; reflexivity|].
  cbn [fmap list_fmap forallb wf_locator].
  rewrite andb_true_r in IH1.
  split.
  - rewrite andb_true_r. apply andb_true_intro. split; [|exact IH1].
    apply bool_decide_eq_true. exact Hh.
  - apply andb_true_intro. split; [|exact IH2].
    apply bool_decide_eq_true. eexists. reflexivity.
Qed.

(** What a successful decode read and built. *)
Lemma decode_sem_success_shape (who : string) (pver : Z)
    (msg m' : MsgGetHeaders.t) (e e' : Env) :
  decode_sem who pver (msg, e) = ((m', e'), Ok tt) ->
  wf_msg m' = true /\ no_nil m' = true /\
  within_bound (MsgGetHeaders.BlockLocatorHashes m') /\
  exists consumed,
    rbuf e = consumed ++ rbuf e' /\
    Z.of_nat (length consumed) <=
    4 + serialization.MaxVarIntPayload + MaxBlockLocatorsPerMsg * 32 + 32.
Proof.
  intros Hd.
  destruct (decode_sem_outcome who pver msg e)
    as [(e2 & er & m1 & Hd' & _) |
       [(e2 & v & c & _ & _ & Hd') |
       [(e2 & v & c & hs & e1 & er & _ & _ & _ & Hd' & _) |
        (e2 & v & c & hs & stop & rest & Eh & Hc & Hsplit & Hlen & Hall & Hstop & Hd')]]];
    rewrite Hd in Hd'; try discriminate.
  injection Hd' as -> ->.
  apply readHeader_shape in Eh as (Hv & header & Hh & Hhl).
  destruct (wf_decoded v hs stop Hv Hall Hstop) as [Hwf Hnn].
  split; [exact Hwf|]. split; [exact Hnn|]. split.
  { unfold within_bound. cbn. rewrite length_fmap. lia. }
  exists (header ++ concat hs ++ stop). split.
  - cbn [rbuf]. rewrite Hh, Hsplit, <- !app_assoc. reflexivity.
  - rewrite !length_app, (length_concat_hashes hs Hall), Hstop, Hlen.
    unfold serialization.MaxVarIntPayload, MaxBlockLocatorsPerMsg,
      common.HashLength in *. lia.
Qed.

(** X11: what the decoder accepts, the encoder can send.  The message a
    successful decode leaves in the receiver is well-formed and has no nil
    locator; encoding it succeeds, and decoding the bytes written gives
    the same message again.  Both messages. *)
Theorem VVSDecode_result_encodes (pver : Z) (enc : MessageEncoding) (e : Env) :
  (forall msg m' e' m0,
     MsgGetHeaders.VVSDecode pver enc (msg, e) = ((m', e'), Ok tt) ->
     wf_msg m' = true /\ no_nil m' = true /\
     exists bytes e'',
       MsgGetHeaders.VVSEncode m' pver enc writing = (mkEnv [] bytes [], Ok tt) /\
       MsgGetHeaders.VVSDecode pver enc (m0, reading bytes) = ((m', e''), Ok tt) /\
       rbuf e'' = []) /\
  (forall msg m' e' m0,
     MsgGetBlocks.VVSDecode pver enc (msg, e) = ((m', e'), Ok tt) ->
     wf_msg (asHeaders m') = true /\ no_nil (asHeaders m') = true /\
     exists bytes e'',
       MsgGetBlocks.VVSEncode m' pver enc writing = (mkEnv [] bytes [], Ok tt) /\
       MsgGetBlocks.VVSDecode pver enc (m0, reading bytes) = ((m', e''), Ok tt) /\
       rbuf e'' = []).
Proof.
  split; intros msg m' e' m0 Hd.
  - rewrite GetHeaders_VVSDecode_eq in Hd.
    apply decode_sem_success_shape in Hd as (Hwf & Hnn & Hb & _).
    split; [exact Hwf|]. split; [exact Hnn|].
    exists (payload m'). eexists. split; [|split].
    + rewrite GetHeaders_VVSEncode_eq, encode_sem_payload by assumption.
      reflexivity.
    + unfold reading. rewrite <- (app_nil_r (payload m')).
      apply GetHeaders_decode_payload; assumption.
    + reflexivity.
  - apply (GetBlocks_VVSDecode_inv pver enc) in Hd.
    apply decode_sem_success_shape in Hd as (Hwf & Hnn & Hb & _).
    split; [exact Hwf|]. split; [exact Hnn|].
    exists (payload (asHeaders m')). eexists. split; [|split].
    + rewrite GetBlocks_VVSEncode_eq, encode_sem_payload by assumption.
      reflexivity.
    + unfold reading. rewrite <- (app_nil_r (payload (asHeaders m'))).
      rewrite GetBlocks_decode_payload by assumption.
      rewrite asBlocks_asHeaders. reflexivity.
    + reflexivity.
Qed.

Lemma VVSDecode_result_encodes_witness :
  wf_msg (MsgGetHeaders.mk 70001 [Some (replicate 32 x05)] (replicate 32 x06)) = true /\
  no_nil (MsgGetHeaders.mk 70001 [Some (replicate 32 x05)] (replicate 32 x06)) = true /\
  exists bytes e'',
    MsgGetHeaders.VVSEncode
      (MsgGetHeaders.mk 70001 [Some (replicate 32 x05)] (replicate 32 x06))
      0 0 writing = (mkEnv [] bytes [], Ok tt) /\
    MsgGetHeaders.VVSDecode 0 0 (twoLocators, reading bytes) =
    ((MsgGetHeaders.mk 70001 [Some (replicate 32 x05)] (replicate 32 x06), e''),
     Ok tt) /\
    rbuf e'' = [].
Proof.
  apply (proj1 (VVSDecode_result_encodes 0 0 (reading wideCountStream))
           MsgGetHeaders.NewMsgGetHeaders _ (mkEnv [] [] [1; 1]) twoLocators).
  reflexivity.
Defined.

(** X12: a successful decode reads no more than [MaxPayloadLength].  The
    bytes [VVSDecode] consumes when it succeeds are a prefix of the input
    of at most [MaxPayloadLength] bytes; what follows them is left in the
    stream.  Both messages. *)
Theorem VVSDecode_consumes_at_most_MaxPayloadLength (pver pver' : Z)
    (enc : MessageEncoding) (e : Env) :
  (forall msg m' e',
     MsgGetHeaders.VVSDecode pver enc (msg, e) = ((m', e'), Ok tt) ->
     exists consumed,
       rbuf e = consumed ++ rbuf e' /\
       Z.of_nat (length consumed) <= MsgGetHeaders.MaxPayloadLength pver') /\
  (forall msg m' e',
     MsgGetBlocks.VVSDecode pver enc (msg, e) = ((m', e'), Ok tt) ->
     exists consumed,
       rbuf e = consumed ++ rbuf e' /\
       Z.of_nat (length consumed) <= MsgGetBlocks.MaxPayloadLength pver').
Proof.
  split; intros msg m' e' Hd.
  - rewrite GetHeaders_VVSDecode_eq in Hd.
    apply decode_sem_success_shape in Hd as (_ & _ & _ & consumed & Hc & Hl).
    exists consumed. split; [exact Hc|]. exact Hl.
  - apply (GetBlocks_VVSDecode_inv pver enc) in Hd.
    apply decode_sem_success_shape in Hd as (_ & _ & _ & consumed & Hc & Hl).
    exists consumed. split; [exact Hc|]. exact Hl.
Qed.

Lemma VVSDecode_consumes_at_most_MaxPayloadLength_witness :
  exists consumed,
    rbuf (reading (wideCountStream ++ [x2a])) =
    consumed ++ rbuf (mkEnv [x2a] [] [1; 1]) /\
    Z.of_nat (length consumed) <= MsgGetHeaders.MaxPayloadLength 0.
Proof.
  apply (proj1 (VVSDecode_consumes_at_most_MaxPayloadLength 0 0 0
                  (reading (wideCountStream ++ [x2a])))
           MsgGetHeaders.NewMsgGetHeaders
           (MsgGetHeaders.mk 70001 [Some (replicate 32 x05)] (replicate 32 x06))).
  reflexivity.
Defined.

(** ** Building a request and sending it *)

Lemma GetBlocks_callEach_room (hashes : list (option common.Hash))
    (b : MsgGetBlocks.t) :
  Z.of_nat (length (MsgGetBlocks.BlockLocatorHashes b)) +
  Z.of_nat (length hashes) <= MaxBlockLocatorsPerMsg ->
  callEach MsgGetBlocks.AddBlockLocatorHash hashes b =
  (MsgGetBlocks.setBlockLocatorHashes
     (MsgGetBlocks.BlockLocatorHashes b ++ hashes) b,
   replicate (length hashes) (Ok tt)).
Proof.
  intros Hlen. destruct hashes as [|h rest] eqn:Eh.
  - destruct b. cbn. rewrite app_nil_r. reflexivity.
  - rewrite <- Eh in *.
    apply (callEach_room MsgGetBlocks.AddBlockLocatorHash
             MsgGetBlocks.BlockLocatorHashes
             MsgGetBlocks.setBlockLocatorHashes); try reflexivity.
    + apply GetBlocks_add_room.
    + exact Hlen.
    + rewrite Eh. discriminate.
Qed.

(** X13: from the constructor to the other end.  A getblocks request made
    by [NewMsgGetBlocks] with a non-nil stop hash, to which at most
    [MaxBlockLocatorsPerMsg] hashes are added one call at a time: every
    call succeeds, the encoder accepts the request, and the decoder gives
    the receiving side the constructor's version, the hashes in the order
    they were added, and the stop hash. *)
Theorem NewMsgGetBlocks_add_encode_decode (pv pver : Z) (enc : MessageEncoding)
    (stop : common.Hash) (hs : list common.Hash) (b0 : MsgGetBlocks.t) :
  0 <= pv < 2 ^ 32 ->
  length stop = common.HashLength ->
  Forall (fun h => length h = common.HashLength) hs ->
  Z.of_nat (length hs) <= MaxBlockLocatorsPerMsg ->
  exists m0 m bytes e',
    MsgGetBlocks.NewMsgGetBlocks pv (Some stop) = Ok m0 /\
    callEach MsgGetBlocks.AddBlockLocatorHash (Some <$> hs) m0 =
      (m, replicate (length hs) (Ok tt)) /\
    MsgGetBlocks.VVSEncode m pver enc writing = (mkEnv [] bytes [], Ok tt) /\
    MsgGetBlocks.VVSDecode pver enc (b0, reading bytes) =
      ((MsgGetBlocks.mk pv (Some <$> hs) stop, e'), Ok tt) /\
    rbuf e' = [].
Proof.
  intros Hpv Hstop Hall Hlen.
  destruct (wf_decoded pv hs stop Hpv Hall Hstop) as [Hwf Hnn].
  set (r := MsgGetHeaders.mk pv (Some <$> hs) stop) in *.
  assert (Hb : within_bound (MsgGetHeaders.BlockLocatorHashes r)).
  { unfold within_bound, r. cbn. rewrite length_fmap. lia. }
  exists (MsgGetBlocks.mk pv [] stop), (asBlocks r), (payload r). eexists.
  split; [reflexivity|]. split; [|split; [|split]].
  - rewrite GetBlocks_callEach_room by (cbn; rewrite length_fmap; lia).
    rewrite length_fmap. reflexivity.
  - rewrite GetBlocks_VVSEncode_eq, asHeaders_asBlocks.
    rewrite encode_sem_payload by assumption. reflexivity.
  - unfold reading. rewrite <- (app_nil_r (payload r)).
    rewrite GetBlocks_decode_payload by assumption. reflexivity.
  - reflexivity.
Qed.

Lemma NewMsgGetBlocks_add_encode_decode_witness :
  exists m0 m bytes e',
    MsgGetBlocks.NewMsgGetBlocks 70001 (Some (replicate 32 xff)) = Ok m0 /\
    callEach MsgGetBlocks.AddBlockLocatorHash
      (Some <$> [replicate 32 x01; replicate 32 x02]) m0 =
      (m, replicate (length [replicate 32 x01; replicate 32 x02]) (Ok tt)) /\
    MsgGetBlocks.VVSEncode m 0 0 writing = (mkEnv [] bytes [], Ok tt) /\
    MsgGetBlocks.VVSDecode 0 0 (MsgGetBlocks.mk 0 [] [], reading bytes) =
      ((MsgGetBlocks.mk 70001 (Some <$> [replicate 32 x01; replicate 32 x02])
          (replicate 32 xff), e'), Ok tt) /\
    rbuf e' = [].
Proof.
  apply (NewMsgGetBlocks_add_encode_decode 70001 0 0 (replicate 32 xff)
           [replicate 32 x01; replicate 32 x02] (MsgGetBlocks.mk 0 [] [])).
  - lia.
  - reflexivity.
  - repeat constructor.
  - unfold MaxBlockLocatorsPerMsg. simpl. lia.
Defined.

(** ** Any number of calls of the mutator *)

Section CallEachAny.
Context {T : Type} (add : option common.Hash -> M T unit).
Context (locators : T -> list (option common.Hash)).
Context (setLocators : list (option common.Hash) -> T -> T).
Context (refusal : error).
Hypothesis locators_set : forall l msg, locators (setLocators l msg) = l.
Hypothesis set_set : forall l l' msg,
  setLocators l (setLocators l' msg) = setLocators l msg.
Hypothesis set_id : forall msg, setLocators (locators msg) msg = msg.
Hypothesis add_full : forall hash msg,
  MaxBlockLocatorsPerMsg <= Z.of_nat (length (locators msg)) ->
  add hash msg = (msg, Err refusal).
Hypothesis add_room : forall hash msg,
  Z.of_nat (length (locators msg)) < MaxBlockLocatorsPerMsg ->
  add hash msg = (setLocators (locators msg ++ [hash]) msg, Ok tt).

Lemma callEach_any (hashes : list (option common.Hash)) :
  forall (msg : T) (room : nat),
  room = Z.to_nat (MaxBlockLocatorsPerMsg - Z.of_nat (length (locators msg))) ->
  callEach add hashes msg =
  (setLocators (locators msg ++ take room hashes) msg,
   replicate (min room (length hashes)) (Ok tt) ++
   replicate (length hashes - room) (Err refusal)).
Proof.
  induction hashes as [|h rest IH]; intros msg room Hroom.
  - cbn [callEach length]. rewrite take_nil, app_nil_r, set_id.
    rewrite Nat.min_0_r. reflexivity.
  - cbn [callEach length].
    destruct room as [|room1].
    + rewrite add_full by lia. rewrite (IH msg 0%nat Hroom).
      rewrite !take_0, Nat.sub_0_r. cbn [Nat.min replicate app Nat.sub].
      reflexivity.
    + rewrite add_room by lia.
      rewrite (IH _ room1)
        by (rewrite locators_set, length_app; cbn [length]; lia).
      rewrite locators_set, set_set, <- app_assoc.
      cbn [take app Nat.min replicate Nat.sub]. reflexivity.
Qed.
End CallEachAny.

(** X14: any number of calls of the mutator, on any message.  Of the
    hashes offered one call each, those for which there is room below
    [MaxBlockLocatorsPerMsg] are appended in order and their calls succeed;
    every later call fails with the error of [AddBlockLocatorHash] and the
    locators already held are never disturbed.  Both messages. *)
Theorem AddBlockLocatorHash_any_number_of_calls
    (hashes : list (option common.Hash)) :
  (forall msg,
     callEach MsgGetHeaders.AddBlockLocatorHash hashes msg =
     (MsgGetHeaders.setBlockLocatorHashes
        (MsgGetHeaders.BlockLocatorHashes msg ++
         take (Z.to_nat (MaxBlockLocatorsPerMsg -
                 Z.of_nat (length (MsgGetHeaders.BlockLocatorHashes msg))))
              hashes) msg,
      replicate
        (min (Z.to_nat (MaxBlockLocatorsPerMsg -
                 Z.of_nat (length (MsgGetHeaders.BlockLocatorHashes msg))))
             (length hashes)) (Ok tt) ++
      replicate
        (length hashes -
         Z.to_nat (MaxBlockLocatorsPerMsg -
                 Z.of_nat (length (MsgGetHeaders.BlockLocatorHashes msg))))
        (Err (MessageError "MsgGetHeaders.AddBlockLocatorHash"
                "too many block locator hashes for message [max 500]")))) /\
  (forall msg,
     callEach MsgGetBlocks.AddBlockLocatorHash hashes msg =
     (MsgGetBlocks.setBlockLocatorHashes
        (MsgGetBlocks.BlockLocatorHashes msg ++
         take (Z.to_nat (MaxBlockLocatorsPerMsg -
                 Z.of_nat (length (MsgGetBlocks.BlockLocatorHashes msg))))
              hashes) msg,
      replicate
        (min (Z.to_nat (MaxBlockLocatorsPerMsg -
                 Z.of_nat (length (MsgGetBlocks.BlockLocatorHashes msg))))
             (length hashes)) (Ok tt) ++
      replicate
        (length hashes -
         Z.to_nat (MaxBlockLocatorsPerMsg -
                 Z.of_nat (length (MsgGetBlocks.BlockLocatorHashes msg))))
        (Err (MessageError "MsgGetBlocks.AddBlockLocatorHash"
                "too many block locator hashes for message [max 500]")))).
Proof.
  split; intros msg.
  - apply (callEach_any MsgGetHeaders.AddBlockLocatorHash
             MsgGetHeaders.BlockLocatorHashes
             MsgGetHeaders.setBlockLocatorHashes); try reflexivity.
    + intros []; reflexivity.
    + apply GetHeaders_add_full.
    + apply GetHeaders_add_room.
  - apply (callEach_any MsgGetBlocks.AddBlockLocatorHash
             MsgGetBlocks.BlockLocatorHashes
             MsgGetBlocks.setBlockLocatorHashes); try reflexivity.
    + intros []; reflexivity.
    + apply GetBlocks_add_full.
    + apply GetBlocks_add_room.
Qed.

(** ** More input after the payload *)

Lemma ReadFull_extend (n : nat) (e e' : Env) (x extra : list byte) :
  ReadFull n e = (e', Ok x) ->
  ReadFull n (extendIn e extra) = (extendIn e' extra, Ok x).
Proof.
  unfold ReadFull. case_decide as Hn; intros [= <- <-].
  cbn [extendIn rbuf wbuf made].
  rewrite decide_True by (rewrite length_app; lia).
  rewrite take_app_le, drop_app_le by exact Hn. reflexivity.
Qed.

Lemma ReadUint32_extend (e e' : Env) (v : Z) (extra : list byte) :
  serialization.ReadUint32 e = (e', Ok v) ->
  serialization.ReadUint32 (extendIn e extra) = (extendIn e' extra, Ok v).
Proof.
  unfold serialization.ReadUint32, bind, ret.
  destruct (ReadFull 4 e) as [e1 [bs|er|w]] eqn:E; intros [= <- <-].
  rewrite (ReadFull_extend _ _ _ _ extra E). reflexivity.
Qed.

Lemma ReadVarInt_extend (pver : Z) (e e' : Env) (c : Z) (extra : list byte) :
  serialization.ReadVarInt pver e = (e', Ok c) ->
  serialization.ReadVarInt pver (extendIn e extra) = (extendIn e' extra, Ok c).
Proof.
  unfold serialization.ReadVarInt. intros H.
  unfold bind at 1 in H. unfold bind at 1.
  destruct (ReadFull 1 e) as [e1 [d|er|w]] eqn:E1; try discriminate.
  rewrite (ReadFull_extend _ _ _ _ extra E1). cbn zeta in *.
  revert H.
  assert (Hwide : forall n,
    (bs <- ReadFull n ;; ret (le_value bs)) e1 = (e', Ok c) ->
    (bs <- ReadFull n ;; ret (le_value bs)) (extendIn e1 extra) =
    (extendIn e' extra, Ok c)).
  { intros n. unfold bind, ret.
    destruct (ReadFull n e1) as [e2 [bs|er|w]] eqn:E2; intros [= <- <-].
    rewrite (ReadFull_extend _ _ _ _ extra E2). reflexivity. }
  destruct (le_value d =? 255); [apply Hwide|].
  destruct (le_value d =? 254); [apply Hwide|].
  destruct (le_value d =? 253); [apply Hwide|].
  unfold ret. intros [= <- <-]. reflexivity.
Qed.

Lemma readHashes_extend (n : nat) :
  forall (bs extra : list byte) hs rest,
  readHashes n bs = (hs, rest, None) ->
  readHashes n (bs ++ extra) = (hs, rest ++ extra, None).
Proof.
  induction n as [|n IH]; intros bs extra hs rest; cbn [readHashes].
  - intros [= <- <-]. reflexivity.
  - case_decide as Hrd; [|discriminate].
    destruct (readHashes n (drop common.HashLength bs)) as [[hs' rest'] err] eqn:E.
    intros [= <- <- ->].
    rewrite decide_True by (rewrite length_app; lia).
    rewrite take_app_le, drop_app_le by exact Hrd.
    rewrite (IH _ extra _ _ E). reflexivity.
Qed.

Lemma decode_sem_extend (who : string) (pver : Z) (msg m' : MsgGetHeaders.t)
    (e e' : Env) (extra : list byte) :
  decode_sem who pver (msg, e) = ((m', e'), Ok tt) ->
  decode_sem who pver (msg, extendIn e extra) = ((m', extendIn e' extra), Ok tt).
Proof.
  unfold decode_sem. cbn [fst snd].
  destruct (serialization.ReadUint32 e) as [e1 [v|er|w]] eqn:Ev; try discriminate.
  rewrite (ReadUint32_extend _ _ _ extra Ev).
  destruct (serialization.ReadVarInt pver e1) as [e2 [c|er|w]] eqn:Ec;
    try discriminate.
  rewrite (ReadVarInt_extend _ _ _ _ extra Ec). cbn zeta.
  destruct (c >? MaxBlockLocatorsPerMsg); [discriminate|].
  destruct (readHashes (Z.to_nat c) (rbuf e2)) as [[hs rest] [er|]] eqn:Er;
    [discriminate|].
  cbn [extendIn rbuf wbuf made].
  rewrite (readHashes_extend _ _ extra _ _ Er).
  destruct (ReadFull common.HashLength _) as [e4 [h|er|w]] eqn:Eh;
    intros [= <- <-].
  apply (ReadFull_extend _ _ _ _ extra) in Eh.
  unfold extendIn in *. cbn [rbuf wbuf made] in *. rewrite Eh. reflexivity.
Qed.

(** X15: a successful decode depends only on the bytes it consumes.  If
    [VVSDecode] succeeds on an input, it succeeds on that input followed
    by any more bytes, decodes the same message and leaves the same
    remainder followed by those bytes.  Both messages. *)
Theorem VVSDecode_ignores_what_follows (pver : Z) (enc : MessageEncoding)
    (e : Env) (extra : list byte) :
  (forall msg m' e',
     MsgGetHeaders.VVSDecode pver enc (msg, e) = ((m', e'), Ok tt) ->
     MsgGetHeaders.VVSDecode pver enc (msg, extendIn e extra) =
     ((m', extendIn e' extra), Ok tt)) /\
  (forall msg m' e',
     MsgGetBlocks.VVSDecode pver enc (msg, e) = ((m', e'), Ok tt) ->
     MsgGetBlocks.VVSDecode pver enc (msg, extendIn e extra) =
     ((m', extendIn e' extra), Ok tt)).
Proof.
  split; intros msg m' e' Hd.
  - rewrite GetHeaders_VVSDecode_eq in *. apply decode_sem_extend, Hd.
  - apply (GetBlocks_VVSDecode_inv pver enc).
    apply (GetBlocks_VVSDecode_inv pver enc) in Hd.
    apply decode_sem_extend, Hd.
Qed.

Lemma VVSDecode_ignores_what_follows_witness :
  MsgGetHeaders.VVSDecode 0 0
    (MsgGetHeaders.NewMsgGetHeaders,
     extendIn (reading (payload twoLocators)) [x2a; x2b]) =
  ((twoLocators, extendIn (mkEnv [] [] [2; 2]) [x2a; x2b]), Ok tt).
Proof.
  apply (proj1 (VVSDecode_ignores_what_follows 0 0
                  (reading (payload twoLocators)) [x2a; x2b])).
  reflexivity.
Defined.
